(** * Walkman playlist creator: a shallow embedding of
      [walkman_playlists_app.py] and the properties of its scanner, library
      filter, playlist editor and serializer.

    Python [str] values are modelled as [string]s whose characters are the
    code points 0..255 (Latin-1); on that range [str.lower], [str.strip] and
    the code-point ordering used by [sorted] are character-wise and are
    written out below.  Paths follow the POSIX flavour of [os.path] and
    [pathlib] (the application targets macOS). *)

From Stdlib Require Import String Ascii List ZArith Lia Bool Arith.
From Stdlib Require Import DecimalString Sorted Permutation.
Import ListNotations.
Open Scope string_scope.
Open Scope list_scope.
Open Scope nat_scope.

(** String concatenation, Python's [+] on [str]. *)
Infix "+++" := String.append (right associativity, at level 60).

(** ** Python string operations *)

Module PyStr.

(** The one-character string holding a line feed, Python's ['\n']. *)
Definition nl : string := String (ascii_of_nat 10) EmptyString.

(** [c.lower()] for a code point below 256: A-Z and the Latin-1 capitals
    (U+00C0..U+00DE except the multiplication sign U+00D7) move up by 32. *)
Definition lower_char (c : ascii) : ascii :=
  let n := nat_of_ascii c in
  if ((65 <=? n) && (n <=? 90)) ||
     ((192 <=? n) && (n <=? 222) && negb (n =? 215))
  then ascii_of_nat (n + 32) else c.

Fixpoint lower (s : string) : string :=
  match s with
  | EmptyString => EmptyString
  | String c s' => String (lower_char c) (lower s')
  end.

(** [c.isspace()] for a code point below 256. *)
Definition isspace (c : ascii) : bool :=
  let n := nat_of_ascii c in
  ((9 <=? n) && (n <=? 13)) || ((28 <=? n) && (n <=? 32)) ||
  (n =? 133) || (n =? 160).

Fixpoint lstrip (s : string) : string :=
  match s with
  | EmptyString => EmptyString
  | String c s' => if isspace c then lstrip s' else s
  end.

(** [rstrip] drops the trailing run of whitespace: a character is kept when
    something after it survives or when it is not whitespace itself. *)
Fixpoint rstrip (s : string) : string :=
  match s with
  | EmptyString => EmptyString
  | String c s' =>
      match rstrip s' with
      | EmptyString => if isspace c then EmptyString else String c EmptyString
      | r => String c r
      end
  end.

Definition strip (s : string) : string := rstrip (lstrip s).

Fixpoint startswith (s pre : string) : bool :=
  match pre, s with
  | EmptyString, _ => true
  | String _ _, EmptyString => false
  | String a pre', String b s' => Ascii.eqb a b && startswith s' pre'
  end.

(** [s.endswith(suf)]: drop characters from the front until what is left
    has the length of [suf]. *)
Fixpoint endswith (s suf : string) : bool :=
  if String.eqb s suf then true
  else match s with
       | EmptyString => false
       | String _ s' => endswith s' suf
       end.

(** [s.endswith(tuple)]: true when some member of the tuple is a suffix. *)
Definition endswith_any (s : string) (sufs : list string) : bool :=
  existsb (endswith s) sufs.

(** [s.find(sub)]: the lowest index where [sub] occurs, or -1. *)
Fixpoint find_from (i : nat) (s sub : string) : Z :=
  if startswith s sub then Z.of_nat i
  else match s with
       | EmptyString => (-1)%Z
       | String _ s' => find_from (S i) s' sub
       end.

Definition find (s sub : string) : Z := find_from 0 s sub.

(** [s.split(sep)] for a one-character separator. *)
Fixpoint split (sep : ascii) (s : string) : list string :=
  match s with
  | EmptyString => [EmptyString]
  | String c s' =>
      if Ascii.eqb c sep then EmptyString :: split sep s'
      else match split sep s' with
           | [] => [String c EmptyString]
           | h :: t => String c h :: t
           end
  end.

(** [sep.join(parts)]. *)
Fixpoint join (sep : string) (parts : list string) : string :=
  match parts with
  | [] => EmptyString
  | [p] => p
  | p :: rest => p +++ sep +++ join sep rest
  end.

(** [s.lstrip(c)] for a single character [c]. *)
Fixpoint lstrip_char (c : ascii) (s : string) : string :=
  match s with
  | EmptyString => EmptyString
  | String a s' => if Ascii.eqb a c then lstrip_char c s' else s
  end.

(** [str(n)] for a natural number, as an f-string formats [len(...)]. *)
Definition str_of_nat (n : nat) : string :=
  NilEmpty.string_of_uint (Nat.to_uint n).

(** [sorted(l, key=key)]: Python's sort is stable, and a stable sort has a
    single possible result, the one this insertion sort computes: an element
    is placed before the first later element whose key is not smaller. *)
Section Sorted.
Context {A : Type} (key : A -> string).

Fixpoint insert_by (x : A) (l : list A) : list A :=
  match l with
  | [] => [x]
  | y :: l' =>
      if String.leb (key x) (key y) then x :: l
      else y :: insert_by x l'
  end.

Fixpoint sorted (l : list A) : list A :=
  match l with
  | [] => []
  | x :: l' => insert_by x (sorted l')
  end.
End Sorted.

End PyStr.

(** ** Exceptions *)

(** A Python computation either returns a value or raises; the exception is
    represented by its message. *)
Inductive result (A : Type) : Type :=
| Ok (a : A)
| Raise (e : string).
Arguments Ok {A} a.
Arguments Raise {A} e.

Definition rbind {A B} (m : result A) (k : A -> result B) : result B :=
  match m with
  | Ok a => k a
  | Raise e => Raise e
  end.

(** ** [os.path] (POSIX flavour) *)

Module posixpath.
Import PyStr.

Definition sep : ascii := "/"%char.

Definition isabs (p : string) : bool := startswith p "/".

(** [ends_with_sep p] is [p.endswith('/')]. *)
Definition ends_with_sep (p : string) : bool := endswith p "/".

(** [os.path.join(a, b)] for two arguments. *)
Definition join2 (a b : string) : string :=
  if startswith b "/" then b
  else if String.eqb a EmptyString || ends_with_sep a then a +++ b
  else a +++ "/" +++ b.

(** [os.path.join(a, *p)]. *)
Definition join (a : string) (p : list string) : string :=
  fold_left join2 p a.

(** One iteration of the component loop of [normpath]; [initial] tells
    whether the path starts with a slash. *)
Definition normpath_step (initial : bool) (new_comps : list string)
    (comp : string) : list string :=
  if String.eqb comp EmptyString || String.eqb comp "." then new_comps
  else if negb (String.eqb comp "..")
          || (negb initial && match new_comps with [] => true | _ => false end)
          || (match new_comps with
              | [] => false
              | _ => String.eqb (last new_comps EmptyString) ".."
              end)
  then new_comps ++ [comp]
  else removelast new_comps.

(** The number of leading slashes [normpath] keeps: two when the path
    starts with exactly two, else one when it starts with one. *)
Definition initial_slashes (path : string) : nat :=
  if startswith path "/" then
    if startswith path "//" && negb (startswith path "///") then 2 else 1
  else 0.

Definition normpath (path : string) : string :=
  if String.eqb path EmptyString then "."
  else
    let ini := initial_slashes path in
    let comps :=
      fold_left (normpath_step (negb (ini =? 0))) (split sep path) [] in
    let body := PyStr.join "/" comps in
    let res :=
      match ini with
      | 0 => body
      | 1 => "/" +++ body
      | _ => "//" +++ body
      end in
    if String.eqb res EmptyString then "." else res.

(** [os.path.abspath]; [getcwd] is the result of [os.getcwd()], which
    raises when the working directory no longer exists. *)
Definition abspath (getcwd : result string) (path : string)
  : result string :=
  if isabs path then Ok (normpath path)
  else rbind getcwd (fun cwd => Ok (normpath (join2 cwd path))).

(** Length of the longest common prefix of two component lists, the
    [len(commonprefix([a, b]))] of [relpath]. *)
Fixpoint common_len (a b : list string) : nat :=
  match a, b with
  | x :: a', y :: b' => if String.eqb x y then S (common_len a' b') else 0
  | _, _ => 0
  end.

Definition tail_list (abs : string) : list string :=
  let t := lstrip_char sep abs in
  if String.eqb t EmptyString then [] else split sep t.

(** [os.path.relpath(path, start)]. *)
Definition relpath (getcwd : result string) (path start : string)
  : result string :=
  if String.eqb path EmptyString then Raise "no path specified"
  else
    rbind (abspath getcwd start) (fun start_abs =>
    rbind (abspath getcwd path) (fun path_abs =>
      let start_list := tail_list start_abs in
      let path_list := tail_list path_abs in
      let i := common_len start_list path_list in
      let rel_list :=
        repeat ".." (List.length start_list - i) ++ skipn i path_list in
      match rel_list with
      | [] => Ok "."
      | c :: cs => Ok (join c cs)
      end)).

End posixpath.

(** ** [pathlib] (pure POSIX paths) *)

Module pathlib.
Import PyStr.

(** A parsed path: its root (empty, ["/"] or ["//"]) and its components. *)
Record Path : Type := mkPath { root : string; tail : list string }.

(** [os.path.splitroot] without the drive, which is empty on POSIX. *)
Definition splitroot (p : string) : string * string :=
  match p with
  | String c0 r0 =>
      if Ascii.eqb c0 posixpath.sep then
        match r0 with
        | String c1 r1 =>
            if Ascii.eqb c1 posixpath.sep then
              match r1 with
              | String c2 _ =>
                  if Ascii.eqb c2 posixpath.sep then ("/", r0)
                  else ("//", r1)
              | EmptyString => ("//", r1)
              end
            else ("/", r0)
        | EmptyString => ("/", r0)
        end
      else (EmptyString, p)
  | EmptyString => (EmptyString, p)
  end.

(** A component survives parsing when it is neither empty nor a dot. *)
Definition keeps (x : string) : bool :=
  negb (String.eqb x EmptyString) && negb (String.eqb x ".").

(** [Path(s)]. *)
Definition Path_of (s : string) : Path :=
  let '(r, rel) := splitroot s in
  mkPath r (filter keeps (split posixpath.sep rel)).

(** [str(p)]. *)
Definition str (p : Path) : string :=
  let s := root p +++ PyStr.join "/" (tail p) in
  if String.eqb s EmptyString then "." else s.

Definition Path_eqb (p q : Path) : bool :=
  String.eqb (root p) (root q) &&
  (if list_eq_dec string_dec (tail p) (tail q) then true else false).

(** [p / t], as pathlib joins parsed parts: a segment with a root replaces
    the path, any other segment contributes its components. *)
Definition joinpath (p : Path) (t : string) : Path :=
  let q := Path_of t in
  if String.eqb (root q) EmptyString then mkPath (root p) (tail p ++ tail q)
  else q.

(** [p.parent]. *)
Definition parent (p : Path) : Path :=
  match tail p with
  | [] => p
  | _ => mkPath (root p) (removelast (tail p))
  end.

(** [pre] is a prefix of [l], component by component. *)
Fixpoint is_prefix (pre l : list string) : bool :=
  match pre, l with
  | [], _ => true
  | _ :: _, [] => false
  | x :: pre', y :: l' => String.eqb x y && is_prefix pre' l'
  end.

(** [p.is_relative_to(other)]. *)
Definition is_relative_to (p other : Path) : bool :=
  String.eqb (root p) (root other) && is_prefix (tail other) (tail p).

(** [p.relative_to(other)], which raises [ValueError] when [p] does not
    lie under [other]. *)
Definition relative_to (p other : Path) : result Path :=
  if is_relative_to p other
  then Ok (mkPath EmptyString (skipn (List.length (tail other)) (tail p)))
  else Raise "ValueError".

End pathlib.

(** ** The file system as [os.walk] sees it *)

#[local] Set Warnings "-register-all".

(** A directory: the names of its files and its sub-directories, each with
    its own content, in listing order. *)
Inductive tree : Type :=
| Dir (files : list string) (dirs : list (string * tree)).

(** [os.walk(top)], top-down: the triple of the directory itself, then the
    walk of each sub-directory under [os.path.join(top, name)].  The scan
    ignores the second component of a triple, the directory names. *)
Fixpoint walk (top : string) (t : tree)
  : list (string * list string * list string) :=
  match t with
  | Dir files dirs =>
      (top, map fst dirs, files) ::
      (fix walk_dirs (ds : list (string * tree)) :=
         match ds with
         | [] => []
         | (d, sub) :: ds' => walk (posixpath.join2 top d) sub ++ walk_dirs ds'
         end) dirs
  end.

(** ** The environment of the application *)

(** What the operating system and the user answer to the program.  Each
    handler opens each dialog at most once, so one answer per dialog is
    enough. *)
Record World : Type := mkWorld {
  (** [os.getcwd()] *)
  getcwd : result string;
  (** [os.path.expanduser('~')] *)
  home : string;
  (** the directory tree below a path; [None] when [os.walk] finds nothing
      to list there and yields no triple *)
  listing : string -> option tree;
  (** [Path.resolve()], which follows symbolic links *)
  resolve : pathlib.Path -> result pathlib.Path;
  (** [open(path, 'w')]: the message of the error it raises, if it does *)
  open_error : string -> option string;
  (** the error raised by the [n]-th call of [f.write] (from 0), if any *)
  write_error : nat -> option string;
  (** the answer of [QFileDialog.getExistingDirectory], empty when the
      dialog is cancelled *)
  pick_directory : string;
  (** the answer of [QInputDialog.getText]: the text and the [ok] flag *)
  input_text : string * bool;
  (** the answer of [QFileDialog.getSaveFileName] for an offered default
      path, empty when the dialog is cancelled *)
  pick_save_file : string -> string
}.

(** What a handler shows or does to the outside, in order. *)
Inductive event : Type :=
| GetExistingDirectory (title dir : string)
| GetText (title label : string)
| GetSaveFileName (title dir filter : string)
| Information (title text : string)
| Warning (title text : string)
| Critical (title text : string)
| FileWritten (path content : string)
| Unhandled (e : string).

(** ** The application state *)

Definition AUDIO_EXTS : list string :=
  [".mp3"; ".flac"; ".wav"; ".m4a"; ".aac"; ".ogg"].

(** The fields of [WalkmanPlaylistApp] that the handlers read or write:
    [library_model] holds the rows shown in the library view,
    [playlist_widget] the rows of the playlist and [current_row] the
    playlist's [currentRow()], -1 when no row is current. *)
Record App : Type := mkApp {
  root_folder : option pathlib.Path;
  root_label : string;
  library : list string;
  library_model : list string;
  playlist_widget : list string;
  current_row : Z
}.

Definition init : App :=
  mkApp None "Root Music Folder: (none)" [] [] [] (-1).

Definition set_root (a : App) (r : pathlib.Path) (l : string) : App :=
  mkApp (Some r) l (library a) (library_model a) (playlist_widget a)
        (current_row a).

Definition set_library (a : App) (l : list string) : App :=
  mkApp (root_folder a) (root_label a) l (library_model a)
        (playlist_widget a) (current_row a).

Definition set_library_model (a : App) (m : list string) : App :=
  mkApp (root_folder a) (root_label a) (library a) m (playlist_widget a)
        (current_row a).

Definition set_playlist (a : App) (p : list string) (row : Z) : App :=
  mkApp (root_folder a) (root_label a) (library a) (library_model a) p row.

(** ** [QListWidget] rows *)

(** [takeItem(row)]: removes and returns the row, or returns nothing when
    there is no such row. *)
Definition takeItem (row : Z) (l : list string)
  : option string * list string :=
  if ((0 <=? row) && (row <? Z.of_nat (List.length l)))%Z
  then (nth_error l (Z.to_nat row),
        firstn (Z.to_nat row) l ++ skipn (S (Z.to_nat row)) l)
  else (None, l).

(** [insertItem(row, item)]: the row is clamped to [0, count]; a null item
    is ignored. *)
Definition insertItem (row : Z) (item : option string) (l : list string)
  : list string :=
  match item with
  | None => l
  | Some x =>
      let r := Z.to_nat (Z.min (Z.max row 0) (Z.of_nat (List.length l))) in
      firstn r l ++ x :: skipn r l
  end.

(** ** Handlers *)

Definition choose_root (w : World) (a : App) : App * list event :=
  let d := pick_directory w in
  let ev := GetExistingDirectory "Select Root Music Folder" (home w) in
  if String.eqb d EmptyString then (a, [ev])
  else
    let r := pathlib.Path_of d in
    (set_root a r ("Root Music Folder: " +++ pathlib.str r), [ev]).

(** The branch of the scan loop that records a matched file. *)
Inductive branch : Type :=
| RelativeToRoot
| RelativeToStart.

(** The body of the scan loop for a matched file [f] of directory [root]:
    the branch taken and the string appended to [track_list]. *)
Definition record_track (root_folder : option pathlib.Path)
    (start : pathlib.Path) (root f : string) : branch * result string :=
  let full := pathlib.joinpath (pathlib.Path_of root) f in
  match root_folder with
  | Some rf =>
      if pathlib.is_relative_to full rf
      then (RelativeToRoot,
            rbind (pathlib.relative_to full rf) (fun rel => Ok (pathlib.str rel)))
      else (RelativeToStart,
            rbind (pathlib.relative_to full start)
                  (fun rel => Ok (pathlib.str rel)))
  | None =>
      (RelativeToStart,
       rbind (pathlib.relative_to full start) (fun rel => Ok (pathlib.str rel)))
  end.

(** [f.lower().endswith(AUDIO_EXTS)] *)
Definition is_audio (f : string) : bool :=
  PyStr.endswith_any (PyStr.lower f) AUDIO_EXTS.

(** The inner loop over the files of one directory, appending to
    [track_list] until something raises. *)
Fixpoint scan_files (root_folder : option pathlib.Path)
    (start : pathlib.Path) (root : string) (files : list string)
    (track_list : list string) : result (list string) :=
  match files with
  | [] => Ok track_list
  | f :: files' =>
      if is_audio f then
        rbind (snd (record_track root_folder start root f)) (fun s =>
          scan_files root_folder start root files' (track_list ++ [s]))
      else scan_files root_folder start root files' track_list
  end.

(** The outer loop over the triples of [os.walk]. *)
Fixpoint scan_walk (root_folder : option pathlib.Path)
    (start : pathlib.Path)
    (triples : list (string * list string * list string))
    (track_list : list string) : result (list string) :=
  match triples with
  | [] => Ok track_list
  | (root, _, files) :: rest =>
      rbind (scan_files root_folder start root files track_list)
            (scan_walk root_folder start rest)
  end.

(** The triples [os.walk(start)] yields in world [w]. *)
Definition os_walk (w : World) (start : pathlib.Path)
  : list (string * list string * list string) :=
  match listing w (pathlib.str start) with
  | Some t => walk (pathlib.str start) t
  | None => []
  end.

(** [populate_library]: the view shows the whole library. *)
Definition populate_library (a : App) : App :=
  set_library_model a (library a).

(** The scan once its starting directory is known; [evs] are the dialogs
    shown so far. *)
Definition scan_from (w : World) (a : App) (start : pathlib.Path)
    (evs : list event) : App * list event :=
  match scan_walk (root_folder a) start (os_walk w start) [] with
  | Raise e => (a, evs ++ [Unhandled e])
  | Ok track_list =>
      let track_list := PyStr.sorted PyStr.lower track_list in
      (populate_library (set_library a track_list),
       evs ++ [Information "Scan Complete"
                 ("Found " +++ PyStr.str_of_nat (List.length track_list)
                           +++ " audio files.")])
  end.

Definition scan_folder (w : World) (a : App) : App * list event :=
  match root_folder a with
  | Some start => scan_from w a start []
  | None =>
      let ev := GetExistingDirectory "Select Folder to Scan" (home w) in
      if String.eqb (pick_directory w) EmptyString then (a, [ev])
      else scan_from w a (pathlib.Path_of (pick_directory w)) [ev]
  end.

(** The test of the loop of [filter_library], with [txt] already stripped
    and lowered: [txt == '' or txt.lower().find(txt) != -1]. *)
Definition filter_test (txt t : string) : bool :=
  String.eqb txt EmptyString || negb (PyStr.find (PyStr.lower txt) txt =? -1)%Z.

Definition filter_library (txt : string) (a : App) : App :=
  let txt := PyStr.lower (PyStr.strip txt) in
  set_library_model a (filter (filter_test txt) (library a)).

Definition move_up (a : App) : App :=
  let row := current_row a in
  if (row >? 0)%Z then
    let '(item, l) := takeItem row (playlist_widget a) in
    set_playlist a (insertItem (row - 1) item l) (row - 1)
  else a.

Definition move_down (a : App) : App :=
  let row := current_row a in
  if ((row >=? 0) && (row <? Z.of_nat (List.length (playlist_widget a)) - 1))%Z
  then
    let '(item, l) := takeItem row (playlist_widget a) in
    set_playlist a (insertItem (row + 1) item l) (row + 1)
  else a.

Definition clear_playlist (a : App) : App := set_playlist a [] (-1).

(** ** Writing the playlist file *)

(** The open file: the text written so far and the number of [f.write]
    calls made.  A computation on it returns or raises, and leaves the file
    as far as it got. *)
Definition file_state : Type := (string * nat)%type.

Definition io (A : Type) : Type := file_state -> result A * file_state.

Definition io_ret {A} (a : A) : io A := fun st => (Ok a, st).

Definition io_bind {A B} (m : io A) (k : A -> io B) : io B :=
  fun st =>
    match m st with
    | (Ok a, st') => k a st'
    | (Raise e, st') => (Raise e, st')
    end.

Notation "x <- m ;; k" := (io_bind m (fun x => k))
  (at level 61, m at next level, right associativity).
Notation "m ;;; k" := (io_bind m (fun _ => k))
  (at level 61, right associativity).

(** A pure computation that may raise, run inside [io]. *)
Definition io_lift {A} (r : result A) : io A := fun st => (r, st).

(** [try: m except Exception: h] *)
Definition io_try {A} (m : io A) (h : io A) : io A :=
  fun st =>
    match m st with
    | (Ok a, st') => (Ok a, st')
    | (Raise _, st') => h st'
    end.

(** [f.write(s)] *)
Definition f_write (w : World) (s : string) : io unit :=
  fun '(text, n) =>
    match write_error w n with
    | Some e => (Raise e, (text, S n))
    | None => (Ok tt, (text +++ s, S n))
    end.

(** [for t in tracks: body t] *)
Fixpoint io_for {A} (l : list A) (body : A -> io unit) : io unit :=
  match l with
  | [] => io_ret tt
  | t :: l' => body t ;;; io_for l' body
  end.

(** The condition of the first [if] of the loop body:
    [self.root_folder and save_path.parent.resolve() ==
     self.root_folder.resolve()]. *)
Definition saved_in_root (w : World) (rf : option pathlib.Path)
    (save_path : pathlib.Path) : io bool :=
  match rf with
  | None => io_ret false
  | Some r =>
      a <- io_lift (resolve w (pathlib.parent save_path)) ;;
      b <- io_lift (resolve w r) ;;
      io_ret (pathlib.Path_eqb a b)
  end.

(** The body of the loop over the tracks. *)
Definition write_track (w : World) (rf : option pathlib.Path)
    (save_path : pathlib.Path) (t : string) : io unit :=
  f_write w ("#EXTINF:," +++ PyStr.nl) ;;;
  inside <- saved_in_root w rf save_path ;;
  if inside then f_write w (t +++ PyStr.nl)
  else
    match rf with
    | Some r =>
        let track_abs := pathlib.joinpath r t in
        io_try
          (rel_to_save <- io_lift (posixpath.relpath (getcwd w)
                                     (pathlib.str track_abs)
                                     (pathlib.str (pathlib.parent save_path))) ;;
           f_write w (rel_to_save +++ PyStr.nl))
          (f_write w (t +++ PyStr.nl))
    | None => f_write w (t +++ PyStr.nl)
    end.

(** The body of the [with open(...)] block. *)
Definition write_playlist (w : World) (rf : option pathlib.Path)
    (save_path : pathlib.Path) (tracks : list string) : io unit :=
  f_write w ("#EXTM3U" +++ PyStr.nl) ;;;
  io_for tracks (write_track w rf save_path).

Definition save_playlist (w : World) (a : App) : App * list event :=
  if List.length (playlist_widget a) =? 0 then
    (a, [Warning "Nothing to save" "Playlist is empty."])
  else
    let ask_name :=
      GetText "Playlist name" "Enter playlist name (no extension):" in
    let '(suggested_name, ok) := input_text w in
    if negb ok || String.eqb (PyStr.strip suggested_name) EmptyString then
      (a, [ask_name])
    else
      let name := PyStr.strip suggested_name in
      let default_dir :=
        match root_folder a with
        | Some r => pathlib.str r
        | None => home w
        end in
      let offered := posixpath.join2 default_dir (name +++ ".m3u8") in
      let ask_path :=
        GetSaveFileName "Save playlist as" offered "M3U8 files (*.m3u8)" in
      let path := pick_save_file w offered in
      if String.eqb path EmptyString then (a, [ask_name; ask_path])
      else
        let tracks := playlist_widget a in
        let save_path := pathlib.Path_of path in
        match open_error w (pathlib.str save_path) with
        | Some e =>
            (a, [ask_name; ask_path;
                 Critical "Save failed" ("Could not save playlist: " +++ e)])
        | None =>
            match write_playlist w (root_folder a) save_path tracks (EmptyString, 0) with
            | (Ok _, (text, _)) =>
                (a, [ask_name; ask_path;
                     FileWritten (pathlib.str save_path) text;
                     Information "Saved"
                       ("Playlist saved to " +++ pathlib.str save_path)])
            | (Raise e, (text, _)) =>
                (a, [ask_name; ask_path;
                     FileWritten (pathlib.str save_path) text;
                     Critical "Save failed"
                       ("Could not save playlist: " +++ e)])
            end
        end.

(** ** The rest of the playlist editor *)

(** [[model.itemFromIndex(i).text() for i in sel]]: the texts of the rows
    [sel] of the library view; a row that the model does not have gives no
    item, and reading its text raises. *)
Fixpoint item_texts (model : list string) (sel : list nat)
  : result (list string) :=
  match sel with
  | [] => Ok []
  | i :: sel' =>
      match nth_error model i with
      | None => Raise "AttributeError"
      | Some t => rbind (item_texts model sel') (fun ts => Ok (t :: ts))
      end
  end.

(** [sel] is what [library_view.selectionModel().selectedIndexes()]
    returns, as rows of the model. *)
Definition get_selected_library_items (sel : list nat) (a : App)
  : result (list string) :=
  item_texts (library_model a) sel.

(** [sel_model] is the selection read through the selection model and
    [sel_view] the one read through the view, used when the first gives no
    item.  [addItem] appends a row and leaves the current row alone. *)
Definition add_selected_to_playlist (sel_model sel_view : list nat) (a : App)
  : App * list event :=
  match get_selected_library_items sel_model a with
  | Raise e => (a, [Unhandled e])
  | Ok items =>
      let items' :=
        match items with
        | [] =>
            match sel_view with
            | [] => Ok items
            | i :: _ => item_texts (library_model a) [i]
            end
        | _ :: _ => Ok items
        end in
      match items' with
      | Raise e => (a, [Unhandled e])
      | Ok its =>
          (set_playlist a (playlist_widget a ++ its) (current_row a), [])
      end
  end.

(** [next_row] is the row the widget makes current once the current row has
    been taken; the handler does not set it. *)
Definition remove_selected_from_playlist (next_row : Z) (a : App) : App :=
  let row := current_row a in
  if (row >=? 0)%Z then
    let '(_, l) := takeItem row (playlist_widget a) in
    set_playlist a l next_row
  else a.

(** ** A concrete world *)

(** [Path.resolve()] on a file system without symbolic links: the absolute,
    normalised path. *)
Definition plain_resolve (cwd : result string) (p : pathlib.Path)
  : result pathlib.Path :=
  rbind (posixpath.abspath cwd (pathlib.str p))
        (fun s => Ok (pathlib.Path_of s)).

(** The music folder of the specification's scenario, with two files that
    are not audio files next to the two tracks. *)
Definition music_tree : tree :=
  Dir ["b.flac"; "notes.txt"] [("A", Dir ["song.mp3"; "Cover.JPG"] [])].

(** A world without symbolic links and without input/output errors whose
    only content is [music_tree] at [/music]; the three dialog answers are
    its parameters. *)
Definition music_world (dir : string) (name : string * bool) (save : string)
  : World :=
  {| getcwd := Ok "/home/user";
     home := "/home/user";
     listing := fun p => if String.eqb p "/music" then Some music_tree else None;
     resolve := plain_resolve (Ok "/home/user");
     open_error := fun _ => None;
     write_error := fun _ => None;
     pick_directory := dir;
     input_text := name;
     pick_save_file := fun _ => save |}.

(** ** The specification's own wording, for comparison with the code *)

(** The filter as section 4.2 words it: the entries whose text contains the
    search string as a case-insensitive substring. *)
Definition spec_filter (txt : string) (lib : list string) : list string :=
  filter (fun t => negb (PyStr.find (PyStr.lower t) (PyStr.lower txt) =? -1)%Z)
         lib.

(** Adjacent entries are in order of their lowercased text. *)
Definition library_sorted (l : list string) : Prop :=
  forall i a b,
    nth_error l i = Some a -> nth_error l (S i) = Some b ->
    String.leb (PyStr.lower a) (PyStr.lower b) = true.

(** The scan ran to its end: it reported its count. *)
Definition scan_completed (evs : list event) : Prop :=
  exists text, In (Information "Scan Complete" text) evs.

(** Every character of [s] is whitespace. *)
Fixpoint all_space (s : string) : bool :=
  match s with
  | EmptyString => true
  | String c s' => PyStr.isspace c && all_space s'
  end.

(** [s] neither starts nor ends with a whitespace character. *)
Definition trimmed (s : string) : Prop :=
  forall c r,
    (s = String c r -> PyStr.isspace c = false) /\
    (s = r +++ String c EmptyString -> PyStr.isspace c = false).

(** [c] occurs in [s]. *)
Fixpoint has_char (c : ascii) (s : string) : bool :=
  match s with
  | EmptyString => false
  | String a s' => Ascii.eqb a c || has_char c s'
  end.


(** The pairs of a playlist file for the given path lines: for each one an
    [#EXTINF:,] line and the path line. *)
Fixpoint pairs_text (lines : list string) : string :=
  match lines with
  | [] => EmptyString
  | p :: rest =>
      "#EXTINF:," +++ PyStr.nl +++ p +++ PyStr.nl +++ pairs_text rest
  end.

(** The text of section 4.4: the header line, then the pairs. *)
Definition m3u8_text (lines : list string) : string :=
  "#EXTM3U" +++ PyStr.nl +++ pairs_text lines.

(** "The output file's directory is exactly the root folder": both resolve
    to the same path. *)
Definition same_directory (w : World) (p q : pathlib.Path) : bool :=
  match resolve w p, resolve w q with
  | Ok a, Ok b => pathlib.Path_eqb a b
  | _, _ => false
  end.

(** The path-resolution rule of section 4.4 for an entry [t], a root folder
    [rf] and the directory [out_dir] of the output file. *)
Definition spec_path_line (w : World) (rf : option pathlib.Path)
    (out_dir : pathlib.Path) (t : string) : string :=
  match rf with
  | Some r =>
      if same_directory w out_dir r then t
      else
        match posixpath.relpath (getcwd w) (pathlib.str (pathlib.joinpath r t))
                                (pathlib.str out_dir) with
        | Ok rel => rel
        | Raise _ => t
        end
  | None => t
  end.

(** Nothing fails in world [w]: files open, writes succeed and paths
    resolve. *)
Definition healthy (w : World) : Prop :=
  (forall p, open_error w p = None) /\
  (forall n, write_error w n = None) /\
  (forall p, exists q, resolve w p = Ok q).

(** The path the destination dialog offers. *)
Definition offered_path (w : World) (a : App) : string :=
  posixpath.join2
    (match root_folder a with
     | Some r => pathlib.str r
     | None => home w
     end)
    (PyStr.strip (fst (input_text w)) +++ ".m3u8").

(** The user goes through with saving to [path]: there is something to
    save, the name prompt is confirmed with a name that is not blank, and
    the destination dialog is answered with [path]. *)
Definition save_confirmed (w : World) (a : App) (path : string) : Prop :=
  playlist_widget a <> [] /\
  snd (input_text w) = true /\
  all_space (fst (input_text w)) = false /\
  pick_save_file w (offered_path w a) = path /\
  path <> EmptyString.

(** A name that a directory listing can return: it holds no slash. *)
Definition valid_name (n : string) : bool := negb (has_char posixpath.sep n).

(** Every name in the tree is a valid name. *)
Fixpoint wf_tree (t : tree) : bool :=
  match t with
  | Dir files dirs =>
      forallb valid_name files &&
      (fix wf_dirs (ds : list (string * tree)) : bool :=
         match ds with
         | [] => true
         | (d, sub) :: ds' => valid_name d && wf_tree sub && wf_dirs ds'
         end) dirs
  end.

(** The listing that the scan walks from [start] holds valid names only. *)
Definition wf_listing (w : World) (start : pathlib.Path) : Prop :=
  match listing w (pathlib.str start) with
  | Some t => wf_tree t = true
  | None => True
  end.

(** A path obtained by [Path(d)] from some string, as every path the
    application stores is. *)
Definition parsed (p : pathlib.Path) : Prop := exists d, p = pathlib.Path_of d.

(** The directory a scan starts from: the root folder when one is set, else
    the folder picked in the dialog, if any. *)
Definition scan_start (w : World) (a : App) : option pathlib.Path :=
  match root_folder a with
  | Some r => Some r
  | None =>
      if String.eqb (pick_directory w) EmptyString then None
      else Some (pathlib.Path_of (pick_directory w))
  end.

(** The files of the walk with a recognized extension, each with the
    directory that lists it, in the order of the walk. *)
Definition matched_files (triples : list (string * list string * list string))
  : list (string * string) :=
  flat_map (fun '(root, _, files) => map (pair root) (filter is_audio files))
           triples.

(** The lowercased text ends with a recognized extension. *)
Definition has_audio_ext (s : string) : Prop :=
  exists ext, In ext AUDIO_EXTS /\ PyStr.endswith (PyStr.lower s) ext = true.

(** The entry [s] is the one recorded for the file [f] of directory [root]:
    the path of the file relative to [base], as text, ending with the
    file's name. *)
Definition recorded_for (base : pathlib.Path) (rf : string * string)
    (s : string) : Prop :=
  exists rel,
    pathlib.relative_to (pathlib.joinpath (pathlib.Path_of (fst rf)) (snd rf))
                        base = Ok rel /\
    s = pathlib.str rel /\
    PyStr.endswith s (snd rf) = true.

(** A triple of the walk lies under [base]: its directory parses to the
    components of [base] followed by some more, and its file names are
    valid. *)
Definition under (base : pathlib.Path)
    (triple : string * list string * list string) : Prop :=
  (exists ds,
      pathlib.Path_of (fst (fst triple)) =
      pathlib.mkPath (pathlib.root base) (pathlib.tail base ++ ds)) /\
  forallb valid_name (snd triple) = true.

(** [a] sorts no later than [b]: its key is the smaller or they are equal. *)
Definition key_le {A : Type} (key : A -> string) (a b : A) : Prop :=
  String.leb (key a) (key b) = true.

(** A path as parsing produces them: one of the three roots, and
    components without slash that are neither empty nor a dot. *)
Definition wf_path (p : pathlib.Path) : Prop :=
  (pathlib.root p = EmptyString \/ pathlib.root p = "/" \/
   pathlib.root p = "//") /\
  Forall (fun x => has_char posixpath.sep x = false /\
                   pathlib.keeps x = true) (pathlib.tail p).

(** A component of a normalised absolute path: without slash, and neither
    empty, a dot nor two dots. *)
Definition clean (x : string) : Prop :=
  has_char posixpath.sep x = false /\ x <> EmptyString /\ x <> "." /\
  x <> "..".

(** The leading slashes [normpath] puts back. *)
Definition slashes (n : nat) : string :=
  match n with
  | 0 => EmptyString
  | 1 => "/"
  | _ => "//"
  end.

(** The rows are rows of the library view. *)
Definition valid_rows (sel : list nat) (a : App) : Prop :=
  Forall (fun i => i < List.length (library_model a)) sel.


(** A world like [music_world] in which opening, writing and resolving
    answer as given. *)
Definition faulty_world (open_e : option string)
    (write_e : nat -> option string)
    (res : pathlib.Path -> result pathlib.Path)
    (name : string * bool) (save : string) : World :=
  {| getcwd := Ok "/home/user";
     home := "/home/user";
     listing := fun p =>
       if String.eqb p "/music" then Some music_tree else None;
     resolve := res;
     open_error := fun _ => open_e;
     write_error := write_e;
     pick_directory := "/music";
     input_text := name;
     pick_save_file := fun _ => save |}.

(** The last character of a string, if it has one. *)
Fixpoint last_char (s : string) : option ascii :=
  match s with
  | EmptyString => None
  | String c EmptyString => Some c
  | String _ s' => last_char s'
  end.

(** A component that [join] can append: without slash and not empty. *)
Definition plain (x : string) : Prop :=
  has_char posixpath.sep x = false /\ x <> EmptyString.

(** The states the application can be in: the initial state and what the
    handlers make of a reachable state, the scans running on listings with
    valid names. *)
Inductive reachable : App -> Prop :=
| reach_init : reachable init
| reach_choose_root (w : World) (a : App) :
    reachable a -> reachable (fst (choose_root w a))
| reach_scan_folder (w : World) (a : App) :
    reachable a ->
    (forall start, scan_start w a = Some start -> wf_listing w start) ->
    reachable (fst (scan_folder w a))
| reach_filter_library (txt : string) (a : App) :
    reachable a -> reachable (filter_library txt a)
| reach_add_selected (sel_model sel_view : list nat) (a : App) :
    reachable a ->
    reachable (fst (add_selected_to_playlist sel_model sel_view a))
| reach_remove_selected (next_row : Z) (a : App) :
    reachable a -> reachable (remove_selected_from_playlist next_row a)
| reach_move_up (a : App) : reachable a -> reachable (move_up a)
| reach_move_down (a : App) : reachable a -> reachable (move_down a)
| reach_clear_playlist (a : App) : reachable a -> reachable (clear_playlist a)
| reach_save_playlist (w : World) (a : App) :
    reachable a -> reachable (fst (save_playlist w a)).

(** What holds in every reachable state. *)
Definition app_invariant (a : App) : Prop :=
  (forall r, root_folder a = Some r -> parsed r) /\
  library_sorted (library a) /\
  library_model a = library a /\
  Forall has_audio_ext (library a) /\
  Forall has_audio_ext (playlist_widget a).





(** * Properties *)

(** ** Strings *)

Section StringFacts.
Import PyStr.

Lemma append_nil_r (s : string) : s +++ EmptyString = s.
Proof. induction s as [|c s IH]; simpl; [reflexivity | now rewrite IH]. Qed.

Lemma append_assoc (s t u : string) : (s +++ t) +++ u = s +++ t +++ u.
Proof. induction s as [|c s IH]; simpl; [reflexivity | now rewrite IH]. Qed.

Lemma lower_char_idem (c : ascii) : lower_char (lower_char c) = lower_char c.
Proof. destruct c as [[] [] [] [] [] [] [] []]; reflexivity. Qed.

Lemma lower_idem (s : string) : lower (lower s) = lower s.
Proof.
  induction s as [|c s IH]; simpl; [reflexivity|].
  now rewrite lower_char_idem, IH.
Qed.

Lemma lower_app (s t : string) : lower (s +++ t) = lower s +++ lower t.
Proof. induction s as [|c s IH]; simpl; [reflexivity | now rewrite IH]. Qed.

Lemma startswith_refl (s : string) : startswith s s = true.
Proof.
  induction s as [|c s IH]; simpl; [reflexivity|].
  now rewrite Ascii.eqb_refl, IH.
Qed.

Lemma find_self (s : string) : find s s = 0%Z.
Proof.
  unfold find. destruct s as [|c s]; simpl; [reflexivity|].
  now rewrite Ascii.eqb_refl, startswith_refl.
Qed.

End StringFacts.

(** ** The library filter *)

(** The test of [filter_library] searches the filter text in itself, so it
    holds for every entry. *)
Lemma filter_test_true (txt t : string) :
  filter_test (PyStr.lower (PyStr.strip txt)) t = true.
Proof.
  unfold filter_test. rewrite lower_idem, find_self.
  now rewrite orb_true_r.
Qed.

Lemma filter_library_model (txt : string) (a : App) :
  library_model (filter_library txt a) = library a.
Proof.
  unfold filter_library; simpl.
  induction (library a) as [|t l IH]; simpl; [reflexivity|].
  now rewrite filter_test_true, IH.
Qed.

Lemma filter_library_library (txt : string) (a : App) :
  library (filter_library txt a) = library a.
Proof. reflexivity. Qed.

(** C2, on the code: with the library [A/song.mp3, b.flac] and the search
    text [flac], the entries that contain the text are [b.flac] alone, yet
    [filter_library] displays both entries; the library itself is left as it
    was. *)
Theorem filter_library_shows_unmatched_entry :
  let a := mkApp None EmptyString ["A/song.mp3"; "b.flac"] [] [] (-1) in
  library_model (filter_library "flac" a) = ["A/song.mp3"; "b.flac"] /\
  spec_filter "flac" (library a) = ["b.flac"] /\
  library (filter_library "flac" a) = library a.
Proof. repeat split. Qed.

(** C8: filtering twice with the same text displays what filtering once
    displays, and filtering with the empty text displays the whole
    library. *)
Theorem filter_library_idempotent (txt : string) (a : App) :
  library_model (filter_library txt (filter_library txt a)) =
  library_model (filter_library txt a) /\
  filter_library txt (filter_library txt a) = filter_library txt a /\
  library_model (filter_library EmptyString a) = library a.
Proof.
  split; [|split].
  - now rewrite !filter_library_model.
  - reflexivity.
  - apply filter_library_model.
Qed.

(** ** The playlist editor *)

Lemma firstn_length_app {A} (l1 l2 : list A) :
  firstn (List.length l1) (l1 ++ l2) = l1.
Proof. induction l1 as [|x l1 IH]; simpl; [now destruct l2 | now rewrite IH]. Qed.

Lemma skipn_length_app {A} (l1 l2 : list A) :
  skipn (List.length l1) (l1 ++ l2) = l2.
Proof. induction l1 as [|x l1 IH]; simpl; [reflexivity | exact IH]. Qed.

Lemma takeItem_middle (l1 l2 : list string) (x : string) :
  takeItem (Z.of_nat (List.length l1)) (l1 ++ x :: l2) = (Some x, l1 ++ l2).
Proof.
  unfold takeItem. rewrite length_app.
  replace ((0 <=? Z.of_nat (List.length l1)) &&
           (Z.of_nat (List.length l1) <?
            Z.of_nat (List.length l1 + List.length (x :: l2))))%Z with true
    by (symmetry; apply andb_true_intro; split;
        [apply Z.leb_le | apply Z.ltb_lt; simpl]; lia).
  rewrite Nat2Z.id. f_equal.
  - rewrite nth_error_app2 by lia. now rewrite Nat.sub_diag.
  - rewrite firstn_length_app. f_equal.
    replace (S (List.length l1)) with (List.length (l1 ++ [x]))
      by (rewrite length_app; simpl; lia).
    replace (l1 ++ x :: l2) with ((l1 ++ [x]) ++ l2)
      by (now rewrite <- app_assoc).
    apply skipn_length_app.
Qed.

Lemma insertItem_middle (l1 l2 : list string) (x : string) :
  insertItem (Z.of_nat (List.length l1)) (Some x) (l1 ++ l2) = l1 ++ x :: l2.
Proof.
  unfold insertItem. rewrite length_app.
  replace (Z.min (Z.max (Z.of_nat (List.length l1)) 0)
                 (Z.of_nat (List.length l1 + List.length l2)))
    with (Z.of_nat (List.length l1)) by lia.
  rewrite Nat2Z.id.
  now rewrite firstn_length_app, skipn_length_app.
Qed.

(** C7: with [x] just before [y] in the playlist, moving [y] up or moving
    [x] down exchanges the two and leaves every other row where it was, and
    the current row follows the moved entry; moving the first row up or the
    last row down changes nothing. *)
Theorem move_up_move_down_swap (a : App) :
  (forall l1 l2 x y,
      playlist_widget a = l1 ++ x :: y :: l2 ->
      current_row a = Z.of_nat (S (List.length l1)) ->
      move_up a = set_playlist a (l1 ++ y :: x :: l2)
                               (Z.of_nat (List.length l1))) /\
  (forall l1 l2 x y,
      playlist_widget a = l1 ++ x :: y :: l2 ->
      current_row a = Z.of_nat (List.length l1) ->
      move_down a = set_playlist a (l1 ++ y :: x :: l2)
                                 (Z.of_nat (S (List.length l1)))) /\
  (current_row a = 0%Z -> move_up a = a) /\
  (current_row a = (Z.of_nat (List.length (playlist_widget a)) - 1)%Z ->
   move_down a = a).
Proof.
  split; [|split; [|split]].
  - intros l1 l2 x y Hl Hr. unfold move_up. rewrite Hr, Hl.
    replace (Z.of_nat (S (List.length l1)) >? 0)%Z with true
      by (symmetry; apply Z.gtb_lt; lia).
    replace (l1 ++ x :: y :: l2) with ((l1 ++ [x]) ++ y :: l2)
      by (now rewrite <- app_assoc).
    replace (S (List.length l1)) with (List.length (l1 ++ [x]))
      by (rewrite length_app; simpl; lia).
    rewrite takeItem_middle.
    replace (Z.of_nat (List.length (l1 ++ [x])) - 1)%Z
      with (Z.of_nat (List.length l1))
      by (rewrite length_app; simpl; lia).
    rewrite <- app_assoc.
    change ([x] ++ l2) with (x :: l2).
    now rewrite insertItem_middle.
  - intros l1 l2 x y Hl Hr. unfold move_down. rewrite Hr, Hl.
    replace ((Z.of_nat (List.length l1) >=? 0) &&
             (Z.of_nat (List.length l1) <?
              Z.of_nat (List.length (l1 ++ x :: y :: l2)) - 1))%Z with true
      by (symmetry; apply andb_true_intro; split;
          [apply Z.geb_le | apply Z.ltb_lt; rewrite length_app; simpl]; lia).
    rewrite takeItem_middle.
    replace (l1 ++ y :: l2) with ((l1 ++ [y]) ++ l2)
      by (now rewrite <- app_assoc).
    replace (Z.of_nat (List.length l1) + 1)%Z
      with (Z.of_nat (List.length (l1 ++ [y])))
      by (rewrite length_app; simpl; lia).
    rewrite insertItem_middle, <- app_assoc.
    change ([y] ++ x :: l2) with (y :: x :: l2).
    replace (List.length (l1 ++ [y])) with (S (List.length l1))
      by (rewrite length_app; simpl; lia).
    replace (Z.of_nat (List.length l1) + 1)%Z
      with (Z.of_nat (S (List.length l1))) by lia.
    reflexivity.
  - intros Hr. unfold move_up. now rewrite Hr.
  - intros Hr. unfold move_down. rewrite Hr.
    replace (Z.of_nat (List.length (playlist_widget a)) - 1 <?
             Z.of_nat (List.length (playlist_widget a)) - 1)%Z with false
      by (symmetry; apply Z.ltb_irrefl).
    now rewrite andb_false_r.
Qed.

Lemma move_up_move_down_swap_witness :
  move_up (mkApp None EmptyString [] [] ["a"; "b"; "c"] 2) =
    mkApp None EmptyString [] [] ["a"; "c"; "b"] 1 /\
  move_down (mkApp None EmptyString [] [] ["a"; "b"; "c"] 1) =
    mkApp None EmptyString [] [] ["a"; "c"; "b"] 2 /\
  move_up (mkApp None EmptyString [] [] ["a"; "b"; "c"] 0) =
    mkApp None EmptyString [] [] ["a"; "b"; "c"] 0 /\
  move_down (mkApp None EmptyString [] [] ["a"; "b"; "c"] 2) =
    mkApp None EmptyString [] [] ["a"; "b"; "c"] 2.
Proof.
  split; [|split; [|split]].
  - exact (proj1 (move_up_move_down_swap
                    (mkApp None EmptyString [] [] ["a"; "b"; "c"] 2))
                 ["a"] [] "b" "c" eq_refl eq_refl).
  - exact (proj1 (proj2 (move_up_move_down_swap
                    (mkApp None EmptyString [] [] ["a"; "b"; "c"] 1)))
                 ["a"] [] "b" "c" eq_refl eq_refl).
  - exact (proj1 (proj2 (proj2 (move_up_move_down_swap
                    (mkApp None EmptyString [] [] ["a"; "b"; "c"] 0))))
                 eq_refl).
  - exact (proj2 (proj2 (proj2 (move_up_move_down_swap
                    (mkApp None EmptyString [] [] ["a"; "b"; "c"] 2))))
                 eq_refl).
Defined.

(** ** Sorting *)

Section SortedFacts.
Context {A : Type} (key : A -> string).

Lemma insert_by_hd (x y : A) (l : list A) :
  key_le key y x -> HdRel (key_le key) y l -> HdRel (key_le key) y (PyStr.insert_by key x l).
Proof.
  intros Hyx Hl. destruct l as [|z l]; simpl.
  - now constructor.
  - destruct (String.leb (key x) (key z)); constructor; trivial.
    now inversion Hl.
Qed.

Lemma insert_by_sorted (x : A) (l : list A) :
  Sorted (key_le key) l -> Sorted (key_le key) (PyStr.insert_by key x l).
Proof.
  induction 1 as [|y l Hs IH Hhd]; simpl.
  - repeat constructor.
  - destruct (String.leb (key x) (key y)) eqn:E.
    + constructor; [now constructor | now constructor].
    + constructor; [exact IH|].
      apply insert_by_hd; [|exact Hhd].
      unfold key_le.
      destruct (String.leb_total (key x) (key y)) as [H|H];
        [congruence | exact H].
Qed.

Lemma sorted_Sorted (l : list A) : Sorted (key_le key) (PyStr.sorted key l).
Proof.
  induction l as [|x l IH]; simpl; [constructor|].
  now apply insert_by_sorted.
Qed.

Lemma Sorted_adjacent (l : list A) :
  Sorted (key_le key) l ->
  forall i a b, nth_error l i = Some a -> nth_error l (S i) = Some b ->
                key_le key a b.
Proof.
  induction 1 as [|y l Hs IH Hhd]; intros i a b Ha Hb.
  - destruct i; discriminate.
  - destruct i as [|i]; simpl in Ha, Hb.
    + injection Ha as <-. destruct l as [|z l]; [discriminate|].
      simpl in Hb. injection Hb as <-. now inversion Hhd.
    + now apply (IH i).
Qed.

Lemma insert_by_perm (x : A) (l : list A) :
  Permutation (x :: l) (PyStr.insert_by key x l).
Proof.
  induction l as [|y l IH]; simpl; [reflexivity|].
  destruct (String.leb (key x) (key y)); [reflexivity|].
  rewrite perm_swap. now constructor.
Qed.

Lemma sorted_perm (l : list A) : Permutation l (PyStr.sorted key l).
Proof.
  induction l as [|x l IH]; simpl; [constructor|].
  rewrite <- insert_by_perm. now constructor.
Qed.

End SortedFacts.

Lemma sorted_library_sorted (l : list string) :
  library_sorted (PyStr.sorted PyStr.lower l).
Proof.
  intros i a b Ha Hb.
  exact (Sorted_adjacent PyStr.lower _ (sorted_Sorted PyStr.lower l) i a b Ha Hb).
Qed.

(** ** The scanner: what a scan leaves in the state *)

(** A scan either leaves the state as it was, or replaces the library and
    its view by the sorted list of the tracks it recorded and reports their
    number as its last event. *)
Lemma scan_from_cases (w : World) (a : App) (start : pathlib.Path)
    (evs : list event) :
  (exists e,
      scan_walk (root_folder a) start (os_walk w start) [] = Raise e /\
      scan_from w a start evs = (a, evs ++ [Unhandled e])) \/
  (exists tracks,
      scan_walk (root_folder a) start (os_walk w start) [] = Ok tracks /\
      scan_from w a start evs =
        (populate_library (set_library a (PyStr.sorted PyStr.lower tracks)),
         evs ++ [Information "Scan Complete"
                   ("Found " +++
                    PyStr.str_of_nat
                      (List.length (PyStr.sorted PyStr.lower tracks)) +++
                    " audio files.")])).
Proof.
  unfold scan_from.
  destruct (scan_walk (root_folder a) start (os_walk w start) []) as [t|e].
  - right. now exists t.
  - left. now exists e.
Qed.

Lemma scan_from_sorted (w : World) (a : App) (start : pathlib.Path)
    (evs : list event) :
  (forall e, ~ In (Information "Scan Complete" e) evs) ->
  (scan_completed (snd (scan_from w a start evs)) \/ library_sorted (library a)) ->
  library_sorted (library (fst (scan_from w a start evs))).
Proof.
  intros Hevs H.
  destruct (scan_from_cases w a start evs) as [(e & _ & E)|(t & _ & E)];
    rewrite E in *; simpl in *.
  - destruct H as [(text & Hin)|H]; [|exact H].
    apply in_app_or in Hin.
    destruct Hin as [Hin|[Hin|[]]]; [now apply Hevs in Hin | discriminate].
  - apply sorted_library_sorted.
Qed.

(** C5: whenever a scan runs to its end, the library it leaves is sorted by
    lowercased path: each entry's lowercased text is at most that of the
    next entry.  A scan that stops early (cancelled folder dialog) leaves
    the library as it was, so a sorted library stays sorted. *)
Theorem scan_folder_library_sorted (w : World) (a : App) :
  (scan_completed (snd (scan_folder w a)) ->
   library_sorted (library (fst (scan_folder w a)))) /\
  (library_sorted (library a) ->
   library_sorted (library (fst (scan_folder w a)))).
Proof.
  assert (H : scan_completed (snd (scan_folder w a)) \/
              library_sorted (library a) ->
              library_sorted (library (fst (scan_folder w a)))).
  { unfold scan_folder. destruct (root_folder a) as [rf|].
    - apply scan_from_sorted. intros e [].
    - destruct (String.eqb (pick_directory w) EmptyString).
      + simpl. intros [(text & [Hin|[]])|H]; [discriminate | exact H].
      + apply scan_from_sorted. intros e [Hin|[]]. discriminate. }
  split; intro H'; apply H; [now left | now right].
Qed.

Lemma scan_folder_library_sorted_witness :
  library_sorted
    (library (fst (scan_folder (music_world "/music" (EmptyString, false) EmptyString) init))).
Proof.
  apply (proj1 (scan_folder_library_sorted
                  (music_world "/music" (EmptyString, false) EmptyString) init)).
  exists "Found 2 audio files.". simpl. right. left. reflexivity.
Defined.

(** ** Stripping whitespace *)

Section StripFacts.
Import PyStr.

Lemma lstrip_all_space (s : string) : all_space s = true -> lstrip s = EmptyString.
Proof.
  induction s as [|c s IH]; simpl; [reflexivity|].
  intros H. apply andb_prop in H as [Hc Hs]. rewrite Hc. now apply IH.
Qed.

Lemma lstrip_spec (s : string) :
  exists ws, all_space ws = true /\ s = ws +++ lstrip s /\
             (forall c r, lstrip s = String c r -> isspace c = false).
Proof.
  induction s as [|c s (ws & Hws & Hs & Hfirst)]; simpl.
  - exists EmptyString. repeat split. discriminate.
  - destruct (isspace c) eqn:E.
    + exists (String c ws). simpl. rewrite E, Hws. repeat split.
      * now rewrite <- Hs.
      * exact Hfirst.
    + exists EmptyString. repeat split. intros c' r [= <- _]. exact E.
Qed.

Lemma rstrip_spec (s : string) :
  exists ws, all_space ws = true /\ s = rstrip s +++ ws /\
             (forall c r, rstrip s = r +++ String c EmptyString -> isspace c = false).
Proof.
  induction s as [|a s (ws & Hws & Hs & Hlast)]; simpl.
  - exists EmptyString. repeat split. intros c [|? ?]; discriminate.
  - destruct (rstrip s) as [|b r'] eqn:E.
    + simpl in Hs. destruct (isspace a) eqn:Ea.
      * exists (String a ws). simpl. rewrite Ea, Hws. repeat split.
        -- now rewrite <- Hs.
        -- intros c [|? ?]; discriminate.
      * exists ws. repeat split; [exact Hws | simpl; now rewrite <- Hs |].
        intros c [|x r]; simpl.
        -- now intros [= <-].
        -- destruct r; discriminate.
    + exists ws. repeat split; [exact Hws | simpl in Hs |- *; now rewrite <- Hs |].
      intros c [|x r]; simpl; [discriminate|].
      intros [= <- Hr]. now apply (Hlast c r).
Qed.

Lemma rstrip_first (c : ascii) (s : string) :
  isspace c = false -> exists r, rstrip (String c s) = String c r.
Proof.
  intros Hc. simpl. destruct (rstrip s) as [|b r].
  - rewrite Hc. now exists EmptyString.
  - now exists (String b r).
Qed.

Lemma strip_all_space (s : string) : all_space s = true -> strip s = EmptyString.
Proof. intros H. unfold strip. now rewrite lstrip_all_space. Qed.

Lemma strip_not_all_space (s : string) :
  all_space s = false -> strip s <> EmptyString.
Proof.
  intros H. unfold strip.
  destruct (lstrip_spec s) as (ws & Hws & Hs & Hfirst).
  destruct (lstrip s) as [|c t] eqn:E.
  - rewrite append_nil_r in Hs. congruence.
  - destruct (rstrip_first c t (Hfirst c t eq_refl)) as (r & ->).
    discriminate.
Qed.

(** What [strip] returns: the text between a leading and a trailing run
    of whitespace, itself without whitespace at either end. *)
Lemma strip_spec (s : string) :
  exists ws1 ws2,
    all_space ws1 = true /\ all_space ws2 = true /\
    s = ws1 +++ strip s +++ ws2 /\ trimmed (strip s).
Proof.
  unfold strip.
  destruct (lstrip_spec s) as (ws1 & Hws1 & Hs1 & Hfirst).
  destruct (rstrip_spec (lstrip s)) as (ws2 & Hws2 & Hs2 & Hlast).
  exists ws1, ws2. repeat split; trivial.
  - now rewrite <- Hs2.
  - intros E. destruct (lstrip s) as [|c' t] eqn:El.
    + discriminate.
    + pose proof (Hfirst c' t eq_refl) as Hc'.
      destruct (rstrip_first c' t Hc') as (r' & Er).
      rewrite Er in E. now injection E as <- _.
  - intros E. now apply (Hlast c r).
Qed.

End StripFacts.

(** ** Saving: refusals *)

(** C6: saving an empty playlist shows the warning and nothing else: the
    warning is the handler's only event, so no name or destination dialog
    opens and no file is written, and the state is returned as it was. *)
Theorem save_playlist_empty_blocked (w : World) (a : App) :
  playlist_widget a = [] ->
  save_playlist w a = (a, [Warning "Nothing to save" "Playlist is empty."]).
Proof. intros H. unfold save_playlist. now rewrite H. Qed.

Lemma save_playlist_empty_blocked_witness :
  save_playlist (music_world "/music" ("list", true) "/music/list.m3u8") init
  = (init, [Warning "Nothing to save" "Playlist is empty."]).
Proof.
  apply (save_playlist_empty_blocked
           (music_world "/music" ("list", true) "/music/list.m3u8") init).
  reflexivity.
Defined.

Lemma length_eqb_0 {A} (l : list A) : l <> [] -> (List.length l =? 0) = false.
Proof. destruct l; [congruence | reflexivity]. Qed.

(** The state is never changed by saving. *)
Lemma save_playlist_state (w : World) (a : App) : fst (save_playlist w a) = a.
Proof.
  unfold save_playlist.
  destruct (List.length (playlist_widget a) =? 0); [reflexivity|].
  destruct (input_text w) as [n ok].
  destruct (negb ok || String.eqb (PyStr.strip n) EmptyString); [reflexivity|].
  destruct (String.eqb _ EmptyString); [reflexivity|].
  destruct (open_error w _); [reflexivity|].
  destruct (write_playlist _ _ _ _ _) as [[u|e] [text k]]; reflexivity.
Qed.

(** C9: with a playlist to save and the name prompt confirmed, a name made
    of whitespace only (or empty) ends the handler after the prompt: no
    destination dialog, no file, the state as it was.  Any other name is
    stripped of the whitespace around it, and the destination dialog offers
    the stripped name followed by [.m3u8], joined to the root folder (or the
    home directory when no root is set). *)
Theorem save_playlist_blank_name (w : World) (a : App) (name : string) :
  playlist_widget a <> [] ->
  input_text w = (name, true) ->
  (all_space name = true ->
   save_playlist w a =
     (a, [GetText "Playlist name" "Enter playlist name (no extension):"])) /\
  (all_space name = false ->
   exists ws1 ws2 rest,
     all_space ws1 = true /\ all_space ws2 = true /\
     name = ws1 +++ PyStr.strip name +++ ws2 /\
     trimmed (PyStr.strip name) /\ PyStr.strip name <> EmptyString /\
     save_playlist w a =
       (a, GetText "Playlist name" "Enter playlist name (no extension):"
           :: GetSaveFileName "Save playlist as"
                (posixpath.join2
                   (match root_folder a with
                    | Some r => pathlib.str r
                    | None => home w
                    end)
                   (PyStr.strip name +++ ".m3u8"))
                "M3U8 files (*.m3u8)"
           :: rest)).
Proof.
  intros Hne Hin. split; intros Hsp.
  - unfold save_playlist. rewrite (length_eqb_0 _ Hne), Hin.
    now rewrite (strip_all_space _ Hsp).
  - destruct (strip_spec name) as (ws1 & ws2 & H1 & H2 & H3 & H4).
    pose proof (strip_not_all_space _ Hsp) as Hs.
    unfold save_playlist. rewrite (length_eqb_0 _ Hne), Hin.
    apply String.eqb_neq in Hs. rewrite Hs. simpl negb. simpl orb.
    apply String.eqb_neq in Hs.
    destruct (String.eqb _ EmptyString);
      [|destruct (open_error w _);
        [|destruct (write_playlist _ _ _ _ _) as [[u|e] [text k]]]];
      exists ws1, ws2; eexists;
      exact (conj H1 (conj H2 (conj H3 (conj H4 (conj Hs eq_refl))))).
Qed.

Lemma save_playlist_blank_name_witness :
  save_playlist (music_world "/music" ("   ", true) "/music/list.m3u8")
                (mkApp None EmptyString [] [] ["b.flac"] 0) =
    (mkApp None EmptyString [] [] ["b.flac"] 0,
     [GetText "Playlist name" "Enter playlist name (no extension):"]) /\
  exists rest,
    snd (save_playlist (music_world "/music" (" my list ", true) EmptyString)
                       (mkApp None EmptyString [] [] ["b.flac"] 0)) =
      GetText "Playlist name" "Enter playlist name (no extension):"
      :: GetSaveFileName "Save playlist as" "/home/user/my list.m3u8"
           "M3U8 files (*.m3u8)"
      :: rest.
Proof.
  split.
  - apply (proj1 (save_playlist_blank_name
                    (music_world "/music" ("   ", true) "/music/list.m3u8")
                    (mkApp None EmptyString [] [] ["b.flac"] 0) "   "
                    ltac:(discriminate) eq_refl)).
    reflexivity.
  - destruct (proj2 (save_playlist_blank_name
                       (music_world "/music" (" my list ", true) EmptyString)
                       (mkApp None EmptyString [] [] ["b.flac"] 0) " my list "
                       ltac:(discriminate) eq_refl) eq_refl)
      as (ws1 & ws2 & rest & _ & _ & _ & _ & _ & E).
    exists rest. rewrite E. reflexivity.
Defined.

(** ** Saving: the file written *)

Section WriteFacts.
Variable w : World.
Hypothesis Hw : healthy w.

Lemma f_write_ok (s text : string) (n : nat) :
  f_write w s (text, n) = (Ok tt, (text +++ s, S n)).
Proof.
  unfold f_write. destruct Hw as (_ & Hwr & _). now rewrite Hwr.
Qed.

Lemma saved_in_root_ok (r sp : pathlib.Path) (st : file_state) :
  saved_in_root w (Some r) sp st =
    (Ok (same_directory w (pathlib.parent sp) r), st).
Proof.
  unfold saved_in_root, same_directory, io_bind, io_lift, io_ret.
  destruct Hw as (_ & _ & Hres).
  destruct (Hres (pathlib.parent sp)) as (p' & ->).
  destruct (Hres r) as (r' & ->). reflexivity.
Qed.

Lemma write_track_ok (rf : option pathlib.Path) (sp : pathlib.Path)
    (t text : string) (n : nat) :
  write_track w rf sp t (text, n) =
    (Ok tt,
     (text +++ "#EXTINF:," +++ PyStr.nl +++
      spec_path_line w rf (pathlib.parent sp) t +++ PyStr.nl,
      S (S n))).
Proof.
  unfold write_track, io_bind at 1. rewrite f_write_ok.
  destruct rf as [r|]; unfold io_bind at 1.
  - rewrite saved_in_root_ok. unfold spec_path_line.
    destruct (same_directory w (pathlib.parent sp) r).
    + rewrite f_write_ok. now rewrite !append_assoc.
    + unfold io_try, io_bind, io_lift.
      destruct (posixpath.relpath _ _ _) as [rel|e];
        rewrite f_write_ok; now rewrite !append_assoc.
  - unfold saved_in_root, io_ret, spec_path_line.
    rewrite f_write_ok. now rewrite !append_assoc.
Qed.

Lemma write_tracks_ok (rf : option pathlib.Path) (sp : pathlib.Path)
    (tracks : list string) (text : string) (n : nat) :
  io_for tracks (write_track w rf sp) (text, n) =
    (Ok tt,
     (text +++
      pairs_text (map (spec_path_line w rf (pathlib.parent sp)) tracks),
      n + 2 * List.length tracks)).
Proof.
  revert text n. induction tracks as [|t tracks IH]; intros text n; simpl.
  - unfold io_ret. now rewrite append_nil_r, Nat.add_0_r.
  - unfold io_bind. rewrite write_track_ok, IH.
    rewrite !append_assoc. f_equal. f_equal. lia.
Qed.

Lemma write_playlist_ok (rf : option pathlib.Path) (sp : pathlib.Path)
    (tracks : list string) :
  write_playlist w rf sp tracks (EmptyString, 0) =
    (Ok tt,
     (m3u8_text (map (spec_path_line w rf (pathlib.parent sp)) tracks),
      1 + 2 * List.length tracks)).
Proof.
  unfold write_playlist, io_bind. rewrite f_write_ok, write_tracks_ok.
  reflexivity.
Qed.

(** A confirmed save in a healthy world: the two dialogs, the file with
    one pair per track, and the success notice. *)
Lemma save_playlist_confirmed (a : App) (path : string) :
  save_confirmed w a path ->
  save_playlist w a =
    (a,
     [GetText "Playlist name" "Enter playlist name (no extension):";
      GetSaveFileName "Save playlist as" (offered_path w a)
                      "M3U8 files (*.m3u8)";
      FileWritten
        (pathlib.str (pathlib.Path_of path))
        (m3u8_text
           (map (spec_path_line w (root_folder a)
                   (pathlib.parent (pathlib.Path_of path)))
                (playlist_widget a)));
      Information "Saved"
        ("Playlist saved to " +++ pathlib.str (pathlib.Path_of path))]).
Proof.
  intros (Hne & Hok & Hsp & Hpick & Hpath).
  unfold save_playlist, offered_path in *.
  rewrite (length_eqb_0 _ Hne).
  destruct (input_text w) as [name ok]; simpl in Hok, Hsp, Hpick.
  subst ok. pose proof (strip_not_all_space _ Hsp) as Hs.
  apply String.eqb_neq in Hs. rewrite Hs. simpl negb. simpl orb.
  rewrite Hpick. apply String.eqb_neq in Hpath. rewrite Hpath.
  destruct Hw as (Hop & _ & _). rewrite Hop.
  now rewrite write_playlist_ok.
Qed.

End WriteFacts.

Lemma music_world_healthy (dir : string) (name : string * bool)
    (save : string) : healthy (music_world dir name save).
Proof.
  repeat split. intros p. simpl. unfold plain_resolve, posixpath.abspath.
  destruct (posixpath.isabs (pathlib.str p)); simpl; eauto.
Qed.

(** C1: in a world where nothing fails, a confirmed save writes, for each
    entry [t] of the playlist and in order, the line that the three-case
    rule gives: [t] itself when a root folder is set and the output file's
    directory is the root folder; otherwise, with a root folder, the path
    of [root / t] relative to the output file's directory, or [t] itself
    when that path cannot be computed; and [t] itself without a root
    folder.  With root [/music], the playlist [A/song.mp3, b.flac] and the
    output file [/music/sub/list.m3u8] in a directory distinct from the
    root, the path lines are [../A/song.mp3] and [../b.flac]. *)
Theorem save_playlist_path_rule (w : World) (a : App) (path : string) :
  healthy w ->
  save_confirmed w a path ->
  In (FileWritten
        (pathlib.str (pathlib.Path_of path))
        (m3u8_text
           (map (spec_path_line w (root_folder a)
                   (pathlib.parent (pathlib.Path_of path)))
                (playlist_widget a))))
     (snd (save_playlist w a)) /\
  (root_folder a = Some (pathlib.Path_of "/music") ->
   playlist_widget a = ["A/song.mp3"; "b.flac"] ->
   path = "/music/sub/list.m3u8" ->
   same_directory w (pathlib.Path_of "/music/sub") (pathlib.Path_of "/music")
     = false ->
   map (spec_path_line w (root_folder a)
          (pathlib.parent (pathlib.Path_of path)))
       (playlist_widget a) = ["../A/song.mp3"; "../b.flac"]).
Proof.
  intros Hw Hc. split.
  - rewrite (save_playlist_confirmed w Hw a path Hc). simpl. auto.
  - intros -> -> -> Hsame. unfold spec_path_line.
    change (pathlib.parent (pathlib.Path_of "/music/sub/list.m3u8"))
      with (pathlib.Path_of "/music/sub").
    simpl map. rewrite Hsame. reflexivity.
Qed.

Lemma save_playlist_path_rule_witness :
  In (FileWritten "/music/sub/list.m3u8"
        (m3u8_text ["../A/song.mp3"; "../b.flac"]))
     (snd (save_playlist
             (music_world "/music" ("list", true) "/music/sub/list.m3u8")
             (mkApp (Some (pathlib.Path_of "/music")) EmptyString [] []
                    ["A/song.mp3"; "b.flac"] 0))).
Proof.
  assert (Hc : save_confirmed
                 (music_world "/music" ("list", true) "/music/sub/list.m3u8")
                 (mkApp (Some (pathlib.Path_of "/music")) EmptyString [] []
                        ["A/song.mp3"; "b.flac"] 0)
                 "/music/sub/list.m3u8").
  { split; [discriminate|]. split; [reflexivity|]. split; [reflexivity|].
    split; [reflexivity | discriminate]. }
  pose proof
    (proj1 (save_playlist_path_rule _ _ _ (music_world_healthy _ _ _) Hc))
    as H.
  vm_compute in H |- *. exact H.
Defined.

(** ** The lines of the file *)



Lemma removelast_app_one {A} (l : list A) (x : A) : removelast (l ++ [x]) = l.
Proof.
  induction l as [|y l IH]; simpl; [reflexivity|].
  rewrite IH. destruct l; reflexivity.
Qed.




(** ** Splitting and joining on a separator *)

Section SplitFacts.
Import PyStr.
Variable c : ascii.

Lemma split_nonempty (s : string) : split c s <> [].
Proof.
  destruct s as [|a s]; simpl; [discriminate|].
  destruct (Ascii.eqb a c); [discriminate|].
  destruct (split c s); discriminate.
Qed.

Lemma split_app_sep (s t : string) :
  split c (s +++ String c t) = split c s ++ split c t.
Proof.
  induction s as [|a s IH]; simpl.
  - now rewrite Ascii.eqb_refl.
  - destruct (Ascii.eqb a c); rewrite IH; [reflexivity|].
    pose proof (split_nonempty s) as Hne.
    destruct (split c s) as [|h tl]; [congruence | reflexivity].
Qed.

Lemma split_no_sep (s : string) : has_char c s = false -> split c s = [s].
Proof.
  induction s as [|a s IH]; simpl; [reflexivity|]. intros H.
  apply orb_false_elim in H as [Ha Hs]. now rewrite Ha, (IH Hs).
Qed.

Lemma split_parts_no_sep (s : string) :
  Forall (fun x => has_char c x = false) (split c s).
Proof.
  induction s as [|a s IH]; simpl.
  - now repeat constructor.
  - destruct (Ascii.eqb a c) eqn:E.
    + now constructor.
    + destruct (split c s) as [|h tl]; [now repeat constructor; simpl; rewrite E|].
      inversion IH as [|? ? Hh Htl]; subst.
      constructor; [simpl; now rewrite E, Hh | exact Htl].
Qed.

Lemma split_join (parts : list string) :
  parts <> [] ->
  Forall (fun x => has_char c x = false) parts ->
  split c (join (String c EmptyString) parts) = parts.
Proof.
  intros Hne Hall. induction Hall as [|p rest Hp Hrest IH]; [congruence|].
  destruct rest as [|q rest].
  - simpl. now apply split_no_sep.
  - change (join (String c EmptyString) (p :: q :: rest))
      with (p +++ String c (join (String c EmptyString) (q :: rest))).
    rewrite split_app_sep, (split_no_sep p Hp), IH by discriminate.
    reflexivity.
Qed.

End SplitFacts.

Section SuffixFacts.
Import PyStr.

Lemma endswith_unfold (s suf : string) :
  endswith s suf =
  if String.eqb s suf then true
  else match s with
       | EmptyString => false
       | String _ s' => endswith s' suf
       end.
Proof. destruct s; reflexivity. Qed.

Lemma endswith_intro (pre suf : string) : endswith (pre +++ suf) suf = true.
Proof.
  induction pre as [|a pre IH].
  - rewrite endswith_unfold. simpl append. now rewrite String.eqb_refl.
  - rewrite endswith_unfold. simpl.
    rewrite IH.
    match goal with |- (if ?b then _ else _) = _ => now destruct b end.
Qed.

Lemma endswith_elim (s suf : string) :
  endswith s suf = true -> exists pre, s = pre +++ suf.
Proof.
  induction s as [|a s IH]; rewrite endswith_unfold.
  - destruct (String.eqb EmptyString suf) eqn:E; [|discriminate].
    apply String.eqb_eq in E as <-. now exists EmptyString.
  - destruct (String.eqb (String a s) suf) eqn:E.
    + apply String.eqb_eq in E as <-. now exists EmptyString.
    + intros H. destruct (IH H) as (pre & ->). now exists (String a pre).
Qed.

Lemma endswith_app (pre s suf : string) :
  endswith s suf = true -> endswith (pre +++ s) suf = true.
Proof.
  intros H. destruct (endswith_elim _ _ H) as (p & ->).
  rewrite <- append_assoc. apply endswith_intro.
Qed.

Lemma endswith_lower (s suf ext : string) :
  endswith s suf = true -> endswith (lower suf) ext = true ->
  endswith (lower s) ext = true.
Proof.
  intros H1 H2. destruct (endswith_elim _ _ H1) as (p & ->).
  rewrite lower_app. now apply endswith_app.
Qed.

Lemma endswith_join_last (l : list string) (f : string) :
  endswith (join "/" (l ++ [f])) f = true.
Proof.
  induction l as [|x l IH].
  - apply (endswith_intro EmptyString).
  - change ((x :: l) ++ [f]) with (x :: (l ++ [f])).
    destruct (l ++ [f]) as [|y r] eqn:E; [now destruct l|].
    change (join "/" (x :: y :: r)) with (x +++ "/" +++ join "/" (y :: r)).
    apply endswith_app. now apply endswith_app.
Qed.

End SuffixFacts.

(** ** Parsing paths *)

Section PathFacts.
Import PyStr pathlib.

Lemma keeps_empty_filter (l : list string) :
  filter keeps (EmptyString :: l) = filter keeps l.
Proof. reflexivity. Qed.

(** The components of a parsed path are those of the whole string: the
    slashes of the root only contribute empty components. *)
Lemma split_sep_head (c0 : ascii) (r : string) :
  Ascii.eqb c0 posixpath.sep = true ->
  split posixpath.sep (String c0 r) = EmptyString :: split posixpath.sep r.
Proof. intros E. simpl. now rewrite E. Qed.

Lemma Path_of_alt (s : string) :
  Path_of s = mkPath (fst (splitroot s)) (filter keeps (split posixpath.sep s)).
Proof.
  unfold Path_of, splitroot.
  destruct s as [|c0 r0]; [reflexivity|].
  destruct (Ascii.eqb c0 posixpath.sep) eqn:E0; [|reflexivity].
  rewrite (split_sep_head c0 r0 E0), keeps_empty_filter.
  destruct r0 as [|c1 r1]; [reflexivity|].
  destruct (Ascii.eqb c1 posixpath.sep) eqn:E1; [|reflexivity].
  rewrite (split_sep_head c1 r1 E1), keeps_empty_filter.
  destruct r1 as [|c2 r2]; [reflexivity|].
  destruct (Ascii.eqb c2 posixpath.sep) eqn:E2; [|reflexivity].
  cbn [fst snd]. now rewrite (split_sep_head c1 _ E1), keeps_empty_filter.
Qed.

Lemma no_sep_not_abs (n : string) :
  has_char posixpath.sep n = false -> startswith n "/" = false.
Proof.
  destruct n as [|a n]; [reflexivity|]. intros H.
  apply orb_false_elim in H as [Ha _].
  change (startswith (String a n) "/")
    with (Ascii.eqb posixpath.sep a && startswith n EmptyString).
  now rewrite Ascii.eqb_sym, Ha.
Qed.

Lemma no_sep_root (n : string) :
  has_char posixpath.sep n = false -> fst (splitroot n) = EmptyString.
Proof.
  destruct n as [|a n]; [reflexivity|]. simpl. intros H.
  apply orb_false_elim in H as [Ha _]. now rewrite Ha.
Qed.

Lemma join2_rel (s n : string) :
  has_char posixpath.sep n = false ->
  posixpath.join2 s n =
    if String.eqb s EmptyString || posixpath.ends_with_sep s then s +++ n
    else s +++ "/" +++ n.
Proof. intros H. unfold posixpath.join2. now rewrite no_sep_not_abs. Qed.

Lemma splitroot_join2 (s n : string) :
  has_char posixpath.sep n = false ->
  fst (splitroot (posixpath.join2 s n)) = fst (splitroot s).
Proof.
  intros Hn. rewrite (join2_rel s n Hn).
  unfold posixpath.ends_with_sep, posixpath.sep in *.
  assert (Hhead : match n with
                  | EmptyString => True
                  | String a _ => Ascii.eqb a "/" = false
                  end).
  { destruct n as [|a n']; [exact I|].
    simpl in Hn. now apply orb_false_elim in Hn as [Ha _]. }
  destruct s as [|c0 [|c1 [|c2 r]]].
  - simpl. now apply no_sep_root.
  - simpl. destruct (Ascii.eqb c0 "/") eqn:E0; simpl; unfold posixpath.sep;
      rewrite ?E0; [|reflexivity].
    destruct n as [|a n']; [reflexivity | now rewrite Hhead].
  - simpl.
    destruct (Ascii.eqb c0 "/") eqn:E0; destruct (Ascii.eqb c1 "/") eqn:E1;
      simpl; unfold posixpath.sep; rewrite ?E0, ?E1; try reflexivity.
    destruct n as [|a n']; [reflexivity | now rewrite Hhead].
  - destruct (String.eqb _ EmptyString || endswith _ "/"); simpl append;
      unfold splitroot;
      repeat match goal with
             | |- context [if Ascii.eqb ?a ?b then _ else _] =>
                 destruct (Ascii.eqb a b)
             end; reflexivity.
Qed.


(** Joining a name without slash to a directory path adds the name as a
    component, unless the name is empty or a dot. *)
Lemma tail_join2 (s n : string) :
  has_char posixpath.sep n = false ->
  filter keeps (split posixpath.sep (posixpath.join2 s n)) =
  filter keeps (split posixpath.sep s) ++ filter keeps [n].
Proof.
  intros Hn. rewrite (join2_rel s n Hn).
  destruct (String.eqb s EmptyString) eqn:Es.
  - apply String.eqb_eq in Es as ->. simpl orb. cbv iota.
    change (EmptyString +++ n) with n. now rewrite (split_no_sep _ _ Hn).
  - simpl orb. destruct (posixpath.ends_with_sep s) eqn:Ee.
    + destruct (endswith_elim _ _ Ee) as (s' & ->).
      rewrite append_assoc.
      change ("/" +++ n) with (String posixpath.sep n).
      change (s' +++ "/") with (s' +++ String posixpath.sep EmptyString).
      rewrite !split_app_sep, !filter_app, (split_no_sep _ _ Hn).
      simpl split. simpl (filter keeps [EmptyString]). now rewrite app_nil_r.
    + change (s +++ "/" +++ n) with (s +++ String posixpath.sep n).
      now rewrite split_app_sep, filter_app, (split_no_sep _ _ Hn).
Qed.

Lemma Path_of_join2 (s n : string) :
  has_char posixpath.sep n = false ->
  Path_of (posixpath.join2 s n) =
    mkPath (root (Path_of s)) (tail (Path_of s) ++ filter keeps [n]).
Proof.
  intros Hn. rewrite !Path_of_alt. cbn [root tail].
  now rewrite splitroot_join2, tail_join2.
Qed.

(** What parsing produces. *)
Lemma splitroot_roots (s : string) :
  fst (splitroot s) = EmptyString \/ fst (splitroot s) = "/" \/
  fst (splitroot s) = "//".
Proof.
  unfold splitroot. destruct s as [|c0 [|c1 [|c2 r]]];
    repeat match goal with
           | |- context [if ?b then _ else _] => destruct b
           end; simpl; auto.
Qed.

Lemma Path_of_tail (s : string) :
  Forall (fun x => has_char posixpath.sep x = false /\ keeps x = true)
         (tail (Path_of s)).
Proof.
  rewrite Path_of_alt. cbn [tail].
  pose proof (split_parts_no_sep posixpath.sep s) as H.
  induction H as [|x l Hx Hl IH]; simpl; [constructor|].
  destruct (keeps x) eqn:E; [constructor; auto | exact IH].
Qed.

Lemma filter_keeps_id (l : list string) :
  Forall (fun x => has_char posixpath.sep x = false /\ keeps x = true) l ->
  filter keeps l = l.
Proof.
  induction 1 as [|x l [_ Hx] _ IH]; simpl; [reflexivity|].
  now rewrite Hx, IH.
Qed.

Lemma join_head (x : string) (l : list string) :
  exists r, join "/" (x :: l) = x +++ r.
Proof.
  destruct l as [|y l].
  - exists EmptyString. simpl. now rewrite append_nil_r.
  - now exists ("/" +++ join "/" (y :: l)).
Qed.

(** A parsed path prints to a string that parses back to it. *)
Lemma Path_of_str (p : Path) : parsed p -> Path_of (str p) = p.
Proof.
  intros (d & ->).
  pose proof (Path_of_tail d) as Ht.
  pose proof (splitroot_roots d) as Hr.
  rewrite (Path_of_alt d) in *. cbn [tail] in Ht.
  set (r := fst (splitroot d)) in *.
  set (l := filter keeps (split posixpath.sep d)) in *.
  clearbody r l. clear d.
  assert (Hno : Forall (fun x => has_char posixpath.sep x = false) l)
    by (eapply Forall_impl; [|exact Ht]; now intros x [H _]).
  rewrite Path_of_alt. unfold str. cbn [root tail].
  destruct l as [|x l].
  - destruct Hr as [->|[->| ->]]; reflexivity.
  - assert (Hsplit : split posixpath.sep (join "/" (x :: l)) = x :: l)
      by (apply (split_join posixpath.sep); [discriminate | exact Hno]).
    destruct (join_head x l) as (rest & Hj).
    inversion Ht as [|? ? [Hx Hk] _]; subst.
    destruct x as [|a x']; [discriminate|].
    simpl in Hx. apply orb_false_elim in Hx as [Ha _].
    rewrite Hj in *. simpl append in *.
    destruct Hr as [->|[->| ->]]; simpl append.
    + cbn [String.eqb]. f_equal.
      * simpl. now rewrite Ha.
      * rewrite Hsplit. now apply filter_keeps_id.
    + cbn [String.eqb]. f_equal.
      * simpl. now rewrite Ha.
      * rewrite (split_sep_head "/" _ eq_refl), keeps_empty_filter, Hsplit.
        now apply filter_keeps_id.
    + cbn [String.eqb]. f_equal.
      * simpl. now rewrite Ha.
      * rewrite (split_sep_head "/" _ eq_refl), keeps_empty_filter.
        rewrite (split_sep_head "/" _ eq_refl), keeps_empty_filter, Hsplit.
        now apply filter_keeps_id.
Qed.

End PathFacts.

(** ** Walking a tree *)

Lemma tree_induction (P : tree -> Prop) :
  (forall files dirs, Forall (fun d => P (snd d)) dirs -> P (Dir files dirs)) ->
  forall t, P t.
Proof.
  intros H. fix IH 1. intros [files dirs]. apply H.
  induction dirs as [|[d sub] ds IHds]; constructor; [apply IH | exact IHds].
Qed.

Lemma walk_unfold (top : string) (files : list string)
    (dirs : list (string * tree)) :
  walk top (Dir files dirs) =
    (top, map fst dirs, files)
    :: flat_map (fun d => walk (posixpath.join2 top (fst d)) (snd d)) dirs.
Proof.
  simpl. f_equal.
  induction dirs as [|[d sub] ds IH]; simpl; [reflexivity | now rewrite IH].
Qed.

Lemma wf_tree_unfold (files : list string) (dirs : list (string * tree)) :
  wf_tree (Dir files dirs) =
    forallb valid_name files &&
    forallb (fun d => valid_name (fst d) && wf_tree (snd d)) dirs.
Proof.
  simpl. f_equal.
  induction dirs as [|[d sub] ds IH]; simpl; [reflexivity | now rewrite IH].
Qed.

Lemma walk_under (base : pathlib.Path) (t : tree) :
  wf_tree t = true ->
  forall top ds,
    pathlib.Path_of top =
      pathlib.mkPath (pathlib.root base) (pathlib.tail base ++ ds) ->
    Forall (under base) (walk top t).
Proof.
  induction t as [files dirs IH] using tree_induction.
  intros Hwf top ds Htop. rewrite wf_tree_unfold in Hwf.
  apply andb_prop in Hwf as [Hfiles Hdirs].
  rewrite walk_unfold. constructor.
  - split; [now exists ds | exact Hfiles].
  - clear Hfiles. induction dirs as [|[d sub] dirs IHdirs]; simpl; [constructor|].
    simpl in Hdirs. apply andb_prop in Hdirs as [Hd Hdirs].
    apply andb_prop in Hd as [Hd Hsub].
    inversion IH as [|? ? IHsub IHrest]; subst.
    apply Forall_app. split.
    + apply (IHsub Hsub _ (ds ++ filter pathlib.keeps [d])).
      rewrite Path_of_join2, Htop by (now apply negb_true_iff in Hd).
      cbn [pathlib.root pathlib.tail]. now rewrite app_assoc.
    + now apply IHdirs.
Qed.

(** ** Recording a track *)

Section RecordFacts.
Import PyStr pathlib.

Lemma is_prefix_app (l r : list string) : is_prefix l (l ++ r) = true.
Proof.
  induction l as [|x l IH]; simpl; [reflexivity|].
  now rewrite String.eqb_refl, IH.
Qed.

Lemma is_audio_keeps (f : string) : is_audio f = true -> keeps f = true.
Proof.
  intros H. unfold keeps.
  destruct (String.eqb f EmptyString) eqn:E1.
  { apply String.eqb_eq in E1 as ->. discriminate. }
  destruct (String.eqb f ".") eqn:E2.
  { apply String.eqb_eq in E2 as ->. discriminate. }
  reflexivity.
Qed.

Lemma Path_of_name (f : string) :
  valid_name f = true -> keeps f = true -> Path_of f = mkPath EmptyString [f].
Proof.
  intros Hv Hk. apply negb_true_iff in Hv.
  rewrite Path_of_alt, (no_sep_root _ Hv), (split_no_sep _ _ Hv).
  simpl. now rewrite Hk.
Qed.

Variable start : Path.

Lemma record_track_ok (r f : string) (ds : list string) :
  Path_of r = mkPath (root start) (tail start ++ ds) ->
  valid_name f = true -> is_audio f = true ->
  exists s,
    recorded_for start (r, f) s /\
    record_track None start r f = (RelativeToStart, Ok s) /\
    record_track (Some start) start r f = (RelativeToRoot, Ok s).
Proof.
  intros Hr Hv Ha.
  pose proof (is_audio_keeps f Ha) as Hk.
  assert (Hfull : joinpath (Path_of r) f =
                  mkPath (root start) (tail start ++ ds ++ [f])).
  { unfold joinpath. rewrite (Path_of_name f Hv Hk), Hr. cbn.
    now rewrite <- app_assoc. }
  assert (Hrel : is_relative_to (joinpath (Path_of r) f) start = true).
  { rewrite Hfull. unfold is_relative_to. cbn [root tail].
    now rewrite String.eqb_refl, is_prefix_app. }
  assert (Hto : relative_to (joinpath (Path_of r) f) start =
                Ok (mkPath EmptyString (ds ++ [f]))).
  { unfold relative_to. rewrite Hrel, Hfull. cbn [tail].
    now rewrite skipn_length_app. }
  assert (Hstr : str (mkPath EmptyString (ds ++ [f])) = PyStr.join "/" (ds ++ [f])).
  { unfold str. cbn [root tail]. change (EmptyString +++ ?x) with x.
    pose proof (endswith_join_last ds f) as He.
    destruct (endswith_elim _ _ He) as (pre & ->).
    destruct f as [|c f']; [discriminate|].
    destruct pre; reflexivity. }
  exists (PyStr.join "/" (ds ++ [f])). split; [|split].
  - exists (mkPath EmptyString (ds ++ [f])). cbn [fst snd].
    split; [exact Hto|]. split; [now rewrite Hstr|].
    apply endswith_join_last.
  - unfold record_track. rewrite Hto. simpl. now rewrite Hstr.
  - unfold record_track. rewrite Hrel, Hto. simpl. now rewrite Hstr.
Qed.

(** The root folder, when set, is where the scan starts. *)
Variable rf : option Path.
Hypothesis Hrf : rf = None \/ rf = Some start.

Lemma record_track_recorded (r f : string) (ds : list string) :
  Path_of r = mkPath (root start) (tail start ++ ds) ->
  valid_name f = true -> is_audio f = true ->
  exists s,
    recorded_for start (r, f) s /\
    snd (record_track rf start r f) = Ok s.
Proof.
  intros Hr Hv Ha.
  destruct (record_track_ok r f ds Hr Hv Ha) as (s & Hs & H1 & H2).
  exists s. split; [exact Hs|].
  destruct Hrf as [-> | ->]; [now rewrite H1 | now rewrite H2].
Qed.

Lemma scan_files_ok (r : string) (ds : list string) (files : list string) :
  Path_of r = mkPath (root start) (tail start ++ ds) ->
  forallb valid_name files = true ->
  forall acc,
  exists tracks,
    scan_files rf start r files acc = Ok (acc ++ tracks) /\
    Forall2 (recorded_for start) (map (pair r) (filter is_audio files))
            tracks.
Proof.
  intros Hr. induction files as [|f files IH]; intros Hv acc; simpl.
  - exists []. now rewrite app_nil_r.
  - simpl in Hv. apply andb_prop in Hv as [Hf Hv].
    destruct (is_audio f) eqn:Ha.
    + destruct (record_track_recorded r f ds Hr Hf Ha) as (s & Hs & E).
      rewrite E. simpl.
      destruct (IH Hv (acc ++ [s])) as (tracks & Et & Ht).
      exists (s :: tracks). rewrite Et, <- app_assoc. split; [reflexivity|].
      now constructor.
    + apply (IH Hv).
Qed.

Lemma scan_walk_ok
    (triples : list (string * list string * list string)) :
  Forall (under start) triples ->
  forall acc,
  exists tracks,
    scan_walk rf start triples acc = Ok (acc ++ tracks) /\
    Forall2 (recorded_for start) (matched_files triples) tracks.
Proof.
  induction 1 as [|[[r dirs] files] triples [(ds & Hr) Hv] _ IH];
    intros acc; simpl.
  - exists []. now rewrite app_nil_r.
  - cbn [fst snd] in Hr, Hv.
    destruct (scan_files_ok r ds files Hr Hv acc) as (t1 & E1 & H1).
    rewrite E1. simpl.
    destruct (IH (acc ++ t1)) as (t2 & E2 & H2).
    exists (t1 ++ t2). rewrite E2, <- app_assoc. split; [reflexivity|].
    now apply Forall2_app.
Qed.

End RecordFacts.

(** ** The scanner: what a completed scan records *)

Lemma os_walk_under (w : World) (start : pathlib.Path) :
  parsed start -> wf_listing w start ->
  Forall (under start) (os_walk w start).
Proof.
  intros Hp Hwf. unfold os_walk, wf_listing in *.
  destruct (listing w (pathlib.str start)) as [t|]; [|constructor].
  apply (walk_under start t Hwf _ []).
  rewrite (Path_of_str start Hp), app_nil_r. now destruct start.
Qed.

Lemma scan_start_parsed (w : World) (a : App) (start : pathlib.Path) :
  scan_start w a = Some start ->
  (forall r, root_folder a = Some r -> parsed r) ->
  parsed start /\ (root_folder a = None \/ root_folder a = Some start).
Proof.
  unfold scan_start. intros Hs Hr.
  destruct (root_folder a) as [r|].
  - injection Hs as <-. split; [now apply Hr | now right].
  - destruct (String.eqb (pick_directory w) EmptyString); [discriminate|].
    injection Hs as <-. split; [now eexists | now left].
Qed.

Lemma scan_folder_from (w : World) (a : App) (start : pathlib.Path) :
  scan_start w a = Some start ->
  scan_folder w a =
    scan_from w a start
      (match root_folder a with
       | Some _ => []
       | None => [GetExistingDirectory "Select Folder to Scan" (home w)]
       end).
Proof.
  unfold scan_start, scan_folder. destruct (root_folder a) as [r|].
  - now intros [= <-].
  - destruct (String.eqb (pick_directory w) EmptyString); [discriminate|].
    now intros [= <-].
Qed.

(** A scan of a well-formed listing runs to its end, and its library is the
    sorted list of the entries recorded for the matched files. *)
Lemma scan_folder_ok (w : World) (a : App) (start : pathlib.Path) :
  scan_start w a = Some start ->
  (forall r, root_folder a = Some r -> parsed r) ->
  wf_listing w start ->
  exists tracks,
    scan_walk (root_folder a) start (os_walk w start) [] = Ok tracks /\
    Forall2 (recorded_for start) (matched_files (os_walk w start)) tracks /\
    scan_completed (snd (scan_folder w a)) /\
    library (fst (scan_folder w a)) = PyStr.sorted PyStr.lower tracks /\
    library_model (fst (scan_folder w a)) = PyStr.sorted PyStr.lower tracks.
Proof.
  intros Hs Hr Hwf.
  destruct (scan_start_parsed w a start Hs Hr) as [Hp Hrf].
  destruct (scan_walk_ok start (root_folder a) Hrf (os_walk w start)
              (os_walk_under w start Hp Hwf) [])
    as (tracks & E & H).
  exists tracks. rewrite (scan_folder_from w a start Hs).
  unfold scan_from. rewrite E. cbn [fst snd app library library_model
    set_library set_library_model populate_library].
  repeat split; trivial.
  eexists. apply in_or_app. right. left. reflexivity.
Qed.

Lemma matched_files_in (triples : list (string * list string * list string))
    (r f : string) :
  In (r, f) (matched_files triples) ->
  exists dirs files, In (r, dirs, files) triples /\ In f files /\
                     is_audio f = true.
Proof.
  unfold matched_files. intros H. apply in_flat_map in H as ([[r' dirs] files] & Hin & H).
  apply in_map_iff in H as (f' & [= <- <-] & Hf).
  apply filter_In in Hf as [Hf Ha]. now exists dirs, files.
Qed.

Lemma is_audio_ext (f : string) :
  is_audio f = true ->
  exists ext, In ext AUDIO_EXTS /\ PyStr.endswith (PyStr.lower f) ext = true.
Proof.
  unfold is_audio, PyStr.endswith_any. intros H.
  apply existsb_exists in H as (ext & Hin & He). now exists ext.
Qed.

Lemma recorded_audio (base : pathlib.Path) (r f s : string) :
  recorded_for base (r, f) s -> is_audio f = true -> has_audio_ext s.
Proof.
  intros (rel & _ & _ & He) Ha. cbn [snd] in He.
  destruct (is_audio_ext f Ha) as (ext & Hin & Hext).
  exists ext. split; [exact Hin|]. now apply (endswith_lower s f ext).
Qed.

Lemma Forall2_in_r {A B} (R : A -> B -> Prop) (l : list A) (l' : list B)
    (y : B) :
  Forall2 R l l' -> In y l' -> exists x, In x l /\ R x y.
Proof.
  induction 1 as [|x y' l l' Hxy _ IH]; intros Hin; [destruct Hin|].
  destruct Hin as [<-|Hin].
  - exists x. split; [now left | exact Hxy].
  - destruct (IH Hin) as (x' & Hx' & HR). exists x'. split; [now right | exact HR].
Qed.

(** C4: a scan of a listing with valid names runs to its end; every entry
    of the library it leaves ends, once lowercased, with one of the
    recognized extensions; the library is exactly the sorted list of the
    entries recorded for the files whose lowercased name ends with a
    recognized extension, one entry per such file, so no other file
    appears; and the new library does not depend on the old one: from any
    state with the same root folder the scan leaves the same library. *)
Theorem scan_folder_library_audio (w : World) (a : App) (start : pathlib.Path) :
  scan_start w a = Some start ->
  (forall r, root_folder a = Some r -> parsed r) ->
  wf_listing w start ->
  scan_completed (snd (scan_folder w a)) /\
  (forall e, In e (library (fst (scan_folder w a))) -> has_audio_ext e) /\
  (exists tracks,
      Forall2 (recorded_for start) (matched_files (os_walk w start)) tracks /\
      library (fst (scan_folder w a)) = PyStr.sorted PyStr.lower tracks) /\
  (forall b, root_folder b = root_folder a ->
             library (fst (scan_folder w b)) = library (fst (scan_folder w a))).
Proof.
  intros Hs Hr Hwf.
  destruct (scan_folder_ok w a start Hs Hr Hwf)
    as (tracks & E & H2 & Hc & Hl & _).
  split; [exact Hc|]. split; [|split].
  - intros e He. rewrite Hl in He.
    apply (Permutation_in _ (Permutation_sym (sorted_perm PyStr.lower tracks)))
      in He.
    destruct (Forall2_in_r _ _ _ _ H2 He) as ([r f] & Hin & Hrec).
    destruct (matched_files_in _ _ _ Hin) as (dirs & files & _ & _ & Ha).
    exact (recorded_audio start r f e Hrec Ha).
  - now exists tracks.
  - intros b Hb.
    assert (Hsb : scan_start w b = Some start)
      by (unfold scan_start in *; now rewrite Hb).
    assert (Hrb : forall r, root_folder b = Some r -> parsed r)
      by (now rewrite Hb).
    destruct (scan_folder_ok w b start Hsb Hrb Hwf)
      as (tracks' & E' & _ & _ & Hl' & _).
    rewrite Hb, E in E'. injection E' as <-. now rewrite Hl, Hl'.
Qed.

Lemma music_world_wf (dir : string) (name : string * bool) (save : string) :
  wf_listing (music_world dir name save) (pathlib.Path_of "/music").
Proof. reflexivity. Qed.

Lemma scan_folder_library_audio_witness :
  scan_completed (snd (scan_folder (music_world "/music" (EmptyString, false) EmptyString) init))
  /\ forall e,
       In e (library (fst (scan_folder (music_world "/music" (EmptyString, false) EmptyString)
                                       init))) ->
       has_audio_ext e.
Proof.
  assert (Hs : scan_start (music_world "/music" (EmptyString, false) EmptyString) init =
               Some (pathlib.Path_of "/music")) by reflexivity.
  assert (Hr : forall r, root_folder init = Some r -> parsed r)
    by (intros r; discriminate).
  destruct (scan_folder_library_audio _ _ _ Hs Hr (music_world_wf _ _ _))
    as (Hc & Hall & _).
  split; [exact Hc | exact Hall].
Defined.

Lemma matched_under (w : World) (start : pathlib.Path) (r f : string) :
  parsed start -> wf_listing w start ->
  In (r, f) (matched_files (os_walk w start)) ->
  exists ds,
    pathlib.Path_of r =
      pathlib.mkPath (pathlib.root start) (pathlib.tail start ++ ds) /\
    valid_name f = true /\ is_audio f = true.
Proof.
  intros Hp Hwf Hin.
  destruct (matched_files_in _ _ _ Hin) as (dirs & files & Ht & Hf & Ha).
  pose proof (os_walk_under w start Hp Hwf) as Hu.
  rewrite Forall_forall in Hu. destruct (Hu _ Ht) as [(ds & Hds) Hv].
  cbn [fst snd] in Hds, Hv. exists ds. split; [exact Hds|]. split; [|exact Ha].
  rewrite forallb_forall in Hv. now apply Hv.
Qed.

(** C10: a scan with a root folder set starts at the root folder, without
    asking for a folder, and runs to its end on a listing with valid names;
    its library is the sorted list of the paths of the matched files
    relative to the root folder, one per matched file.  Whatever the state,
    a matched file is recorded by the branch relative to the starting
    directory only when no root folder is set. *)
Theorem scan_folder_relative_to_root (w : World) (a : App)
    (start : pathlib.Path) :
  scan_start w a = Some start ->
  (forall r, root_folder a = Some r -> parsed r) ->
  wf_listing w start ->
  (forall rf, root_folder a = Some rf ->
     start = rf /\
     scan_folder w a = scan_from w a rf [] /\
     (forall t d, ~ In (GetExistingDirectory t d) (snd (scan_folder w a))) /\
     exists tracks,
       Forall2 (recorded_for rf) (matched_files (os_walk w rf)) tracks /\
       library (fst (scan_folder w a)) = PyStr.sorted PyStr.lower tracks) /\
  (forall r f,
     In (r, f) (matched_files (os_walk w start)) ->
     fst (record_track (root_folder a) start r f) = RelativeToStart ->
     root_folder a = None).
Proof.
  intros Hs Hr Hwf.
  destruct (scan_start_parsed w a start Hs Hr) as [Hp Hrf].
  split.
  - intros rf Ha.
    assert (start = rf) as -> by (unfold scan_start in Hs; rewrite Ha in Hs;
                                  now injection Hs).
    destruct (scan_folder_ok w a rf Hs Hr Hwf)
      as (tracks & E & H2 & Hc & Hl & _).
    split; [reflexivity|]. split; [|split].
    + unfold scan_folder. now rewrite Ha.
    + intros t d. unfold scan_folder, scan_from. rewrite Ha in E |- *.
      rewrite E. simpl.
      intros [H|[]]. discriminate.
    + now exists tracks.
  - intros r f Hin Hb.
    destruct (matched_under w start r f Hp Hwf Hin) as (ds & Hds & Hv & Ha).
    destruct (record_track_ok start r f ds Hds Hv Ha) as (s & _ & _ & H2).
    destruct Hrf as [Hn|Hsome]; [exact Hn|].
    rewrite Hsome, H2 in Hb. discriminate.
Qed.

Lemma scan_folder_relative_to_root_witness :
  exists tracks,
    Forall2 (recorded_for (pathlib.Path_of "/music"))
            (matched_files
               (os_walk (music_world EmptyString (EmptyString, false) EmptyString)
                        (pathlib.Path_of "/music")))
            tracks /\
    library (fst (scan_folder (music_world EmptyString (EmptyString, false) EmptyString)
                   (mkApp (Some (pathlib.Path_of "/music")) EmptyString [] [] [] (-1))))
    = PyStr.sorted PyStr.lower tracks.
Proof.
  assert (Hs : scan_start (music_world EmptyString (EmptyString, false) EmptyString)
                 (mkApp (Some (pathlib.Path_of "/music")) EmptyString [] [] [] (-1)) =
               Some (pathlib.Path_of "/music")) by reflexivity.
  assert (Hr : forall r,
             root_folder
               (mkApp (Some (pathlib.Path_of "/music")) EmptyString [] [] [] (-1))
             = Some r -> parsed r).
  { intros r [= <-]. now exists "/music". }
  destruct (proj1 (scan_folder_relative_to_root _ _ _ Hs Hr
                     (music_world_wf _ _ _)) _ eq_refl)
    as (_ & _ & _ & H).
  exact H.
Defined.

(** ** The root folder is always a parsed path *)

Lemma init_root_parsed : forall r, root_folder init = Some r -> parsed r.
Proof. intros r. discriminate. Qed.

Lemma choose_root_parsed (w : World) (a : App) :
  (forall r, root_folder a = Some r -> parsed r) ->
  forall r, root_folder (fst (choose_root w a)) = Some r -> parsed r.
Proof.
  intros Ha r. unfold choose_root.
  destruct (String.eqb (pick_directory w) EmptyString); simpl.
  - apply Ha.
  - intros [= <-]. now eexists.
Qed.

Lemma scan_folder_root (w : World) (a : App) :
  root_folder (fst (scan_folder w a)) = root_folder a.
Proof.
  unfold scan_folder, scan_from.
  destruct (root_folder a) as [r|] eqn:E.
  - destruct (scan_walk _ _ _ _); simpl; now rewrite ?E.
  - destruct (String.eqb (pick_directory w) EmptyString); simpl;
      [now rewrite E|].
    destruct (scan_walk _ _ _ _); simpl; now rewrite ?E.
Qed.

(** * Further properties of the handlers *)

(** ** The playlist editor: inverses, invariants, adding and removing *)

Lemma split_at_row {A} (l : list A) (n : nat) :
  n < List.length l ->
  exists l1 x l2, l = l1 ++ x :: l2 /\ List.length l1 = n.
Proof.
  revert l. induction n as [|n IH]; intros [|y l] H; simpl in H; try lia.
  - now exists [], y, l.
  - destruct (IH l ltac:(lia)) as (l1 & x & l2 & -> & Hn).
    exists (y :: l1), x, l2. simpl. now rewrite Hn.
Qed.

Lemma takeItem_invalid (row : Z) (l : list string) :
  (row < 0 \/ Z.of_nat (List.length l) <= row)%Z -> takeItem row l = (None, l).
Proof.
  intros H. unfold takeItem.
  destruct (0 <=? row)%Z eqn:E1; [|reflexivity].
  destruct (row <? Z.of_nat (List.length l))%Z eqn:E2; [|reflexivity].
  apply Z.leb_le in E1. apply Z.ltb_lt in E2. lia.
Qed.

(** Taking a row either removes one entry, which together with the rest
    makes up the list, or takes nothing and leaves the list. *)
Lemma takeItem_cases (row : Z) (l : list string) :
  (exists l1 x l2, l = l1 ++ x :: l2 /\ row = Z.of_nat (List.length l1) /\
                   takeItem row l = (Some x, l1 ++ l2)) \/
  ((row < 0 \/ Z.of_nat (List.length l) <= row)%Z /\
   takeItem row l = (None, l)).
Proof.
  destruct (Z_lt_dec row 0) as [Hneg|Hpos].
  { right. split; [now left | apply takeItem_invalid; now left]. }
  destruct (Z_le_dec (Z.of_nat (List.length l)) row) as [Hbig|Hin].
  { right. split; [now right | apply takeItem_invalid; now right]. }
  left. destruct (split_at_row l (Z.to_nat row) ltac:(lia))
    as (l1 & x & l2 & -> & Hn).
  exists l1, x, l2. split; [reflexivity|].
  assert (row = Z.of_nat (List.length l1)) as -> by lia.
  split; [reflexivity | apply takeItem_middle].
Qed.

Lemma insertItem_perm (row : Z) (x : string) (l : list string) :
  Permutation (insertItem row (Some x) l) (x :: l).
Proof.
  unfold insertItem.
  set (r := Z.to_nat _).
  rewrite <- (firstn_skipn r l) at 3.
  symmetry. apply Permutation_middle.
Qed.

Lemma move_up_at (a : App) (l1 l2 : list string) (x y : string) :
  playlist_widget a = l1 ++ x :: y :: l2 ->
  current_row a = Z.of_nat (S (List.length l1)) ->
  move_up a = set_playlist a (l1 ++ y :: x :: l2) (Z.of_nat (List.length l1)).
Proof.
  intros Hl Hr. unfold move_up. rewrite Hr, Hl.
  replace (Z.of_nat (S (List.length l1)) >? 0)%Z with true
    by (symmetry; apply Z.gtb_lt; lia).
  replace (l1 ++ x :: y :: l2) with ((l1 ++ [x]) ++ y :: l2)
    by (now rewrite <- app_assoc).
  replace (S (List.length l1)) with (List.length (l1 ++ [x]))
    by (rewrite length_app; simpl; lia).
  rewrite takeItem_middle.
  replace (Z.of_nat (List.length (l1 ++ [x])) - 1)%Z
    with (Z.of_nat (List.length l1))
    by (rewrite length_app; simpl; lia).
  rewrite <- app_assoc.
  change ([x] ++ l2) with (x :: l2).
  now rewrite insertItem_middle.
Qed.

Lemma move_down_at (a : App) (l1 l2 : list string) (x y : string) :
  playlist_widget a = l1 ++ x :: y :: l2 ->
  current_row a = Z.of_nat (List.length l1) ->
  move_down a = set_playlist a (l1 ++ y :: x :: l2)
                             (Z.of_nat (S (List.length l1))).
Proof.
  intros Hl Hr. unfold move_down. rewrite Hr, Hl.
  replace ((Z.of_nat (List.length l1) >=? 0) &&
           (Z.of_nat (List.length l1) <?
            Z.of_nat (List.length (l1 ++ x :: y :: l2)) - 1))%Z with true
    by (symmetry; apply andb_true_intro; split;
        [apply Z.geb_le | apply Z.ltb_lt; rewrite length_app; simpl]; lia).
  rewrite takeItem_middle.
  replace (l1 ++ y :: l2) with ((l1 ++ [y]) ++ l2)
    by (now rewrite <- app_assoc).
  replace (Z.of_nat (List.length l1) + 1)%Z
    with (Z.of_nat (List.length (l1 ++ [y])))
    by (rewrite length_app; simpl; lia).
  rewrite insertItem_middle, <- app_assoc.
  change ([y] ++ x :: l2) with (y :: x :: l2).
  replace (List.length (l1 ++ [y])) with (S (List.length l1))
    by (rewrite length_app; simpl; lia).
  reflexivity.
Qed.

(** X1: moving an entry up and then down again, or down and then up
    again, gives back the state one started from, current row included,
    whenever the first move is possible (the entry is not the first,
    respectively not the last, row). *)
Theorem move_up_move_down_inverse (a : App) :
  ((0 < current_row a < Z.of_nat (List.length (playlist_widget a)))%Z ->
   move_down (move_up a) = a) /\
  ((0 <= current_row a < Z.of_nat (List.length (playlist_widget a)) - 1)%Z ->
   move_up (move_down a) = a).
Proof.
  destruct a as [rf lbl lib model pl row]; cbn [current_row playlist_widget].
  split; intros H.
  - destruct (split_at_row pl (Z.to_nat row - 1) ltac:(lia))
      as (l1 & x & l2' & -> & Hn).
    destruct l2' as [|y l2].
    { rewrite length_app in H. simpl in H. lia. }
    assert (Hrow : row = Z.of_nat (S (List.length l1))) by lia.
    rewrite (move_up_at (mkApp rf lbl lib model (l1 ++ x :: y :: l2) row)
               l1 l2 x y eq_refl Hrow).
    rewrite (move_down_at
               (set_playlist
                  (mkApp rf lbl lib model (l1 ++ x :: y :: l2) row)
                  (l1 ++ y :: x :: l2) (Z.of_nat (List.length l1)))
               l1 l2 y x eq_refl eq_refl).
    unfold set_playlist; cbn. now rewrite Hrow.
  - destruct (split_at_row pl (Z.to_nat row) ltac:(lia))
      as (l1 & x & l2' & -> & Hn).
    destruct l2' as [|y l2].
    { rewrite length_app in H. simpl in H. lia. }
    assert (Hrow : row = Z.of_nat (List.length l1)) by lia.
    rewrite (move_down_at (mkApp rf lbl lib model (l1 ++ x :: y :: l2) row)
               l1 l2 x y eq_refl Hrow).
    rewrite (move_up_at
               (set_playlist
                  (mkApp rf lbl lib model (l1 ++ x :: y :: l2) row)
                  (l1 ++ y :: x :: l2) (Z.of_nat (S (List.length l1))))
               l1 l2 y x eq_refl eq_refl).
    unfold set_playlist; cbn. now rewrite Hrow.
Qed.

Lemma move_up_move_down_inverse_witness :
  move_down (move_up (mkApp None EmptyString [] [] ["a"; "b"; "c"] 2)) =
    mkApp None EmptyString [] [] ["a"; "b"; "c"] 2 /\
  move_up (move_down (mkApp None EmptyString [] [] ["a"; "b"; "c"] 0)) =
    mkApp None EmptyString [] [] ["a"; "b"; "c"] 0.
Proof.
  split.
  - apply (proj1 (move_up_move_down_inverse
                    (mkApp None EmptyString [] [] ["a"; "b"; "c"] 2))).
    simpl. lia.
  - apply (proj2 (move_up_move_down_inverse
                    (mkApp None EmptyString [] [] ["a"; "b"; "c"] 0))).
    simpl. lia.
Defined.

Lemma move_frame (a : App) :
  Permutation (playlist_widget (move_up a)) (playlist_widget a) /\
  Permutation (playlist_widget (move_down a)) (playlist_widget a) /\
  library (move_up a) = library a /\ library (move_down a) = library a /\
  root_folder (move_up a) = root_folder a /\
  root_folder (move_down a) = root_folder a.
Proof.
  assert (Hmove : forall row row',
             let '(item, l) := takeItem row (playlist_widget a) in
             Permutation (insertItem row' item l) (playlist_widget a)).
  { intros row row'.
    destruct (takeItem_cases row (playlist_widget a))
      as [(l1 & x & l2 & Hl & _ & ->)|[_ ->]].
    - rewrite insertItem_perm, Hl. apply Permutation_middle.
    - reflexivity. }
  unfold move_up, move_down.
  destruct (current_row a >? 0)%Z;
    destruct ((current_row a >=? 0) && _)%Z;
    repeat match goal with
           | |- context [takeItem ?r ?l] =>
               let H := fresh in
               pose proof (Hmove r (r - 1)%Z) as H;
               pose proof (Hmove r (r + 1)%Z);
               destruct (takeItem r l)
           end; cbn; repeat split; trivial.
Qed.

(** X2: whatever the current row is, moving up or down only rearranges the
    playlist: the entries after the move are the entries before it, each as
    many times; the library and the root folder are not touched. *)
Theorem move_keeps_entries (a : App) :
  Permutation (playlist_widget (move_up a)) (playlist_widget a) /\
  Permutation (playlist_widget (move_down a)) (playlist_widget a) /\
  library (move_up a) = library a /\ library (move_down a) = library a /\
  root_folder (move_up a) = root_folder a /\
  root_folder (move_down a) = root_folder a.
Proof. apply move_frame. Qed.

Lemma item_texts_valid (model : list string) (sel : list nat) :
  Forall (fun i => i < List.length model) sel ->
  exists items,
    item_texts model sel = Ok items /\
    Forall2 (fun i t => nth_error model i = Some t) sel items.
Proof.
  induction 1 as [|i sel Hi _ (items & E & H2)]; simpl.
  - exists []. split; [reflexivity | constructor].
  - destruct (nth_error model i) as [t|] eqn:En.
    + exists (t :: items). rewrite E. split; [reflexivity | now constructor].
    + apply nth_error_None in En. lia.
Qed.

Lemma set_playlist_same (a : App) :
  set_playlist a (playlist_widget a ++ []) (current_row a) = a.
Proof. destruct a; unfold set_playlist; cbn. now rewrite app_nil_r. Qed.

(** X3: adding a selection of rows of the library view appends the texts
    of those rows to the end of the playlist, in the order of the
    selection and as often as they are selected; the entries already in
    the playlist stay where they are, the current row, the library and the
    view are not touched, and nothing is reported.  With nothing selected
    the state is left as it is. *)
Theorem add_selected_appends (sel_model sel_view : list nat) (a : App) :
  valid_rows sel_model a ->
  (sel_model = [] -> sel_view = []) ->
  exists items,
    Forall2 (fun i t => nth_error (library_model a) i = Some t)
            sel_model items /\
    add_selected_to_playlist sel_model sel_view a =
      (set_playlist a (playlist_widget a ++ items) (current_row a), []) /\
    (sel_model = [] -> add_selected_to_playlist sel_model sel_view a = (a, [])).
Proof.
  intros Hv Hsame.
  destruct (item_texts_valid _ _ Hv) as (items & E & H2).
  exists items. split; [exact H2|].
  unfold add_selected_to_playlist, get_selected_library_items. rewrite E.
  destruct items as [|t items].
  - inversion H2; subst. rewrite (Hsame eq_refl). split; [reflexivity|].
    intros _. now rewrite set_playlist_same.
  - split; [reflexivity|]. intros ->. inversion H2.
Qed.

Lemma add_selected_appends_witness :
  fst (add_selected_to_playlist [1; 0; 1] [1; 0; 1]
         (mkApp None EmptyString ["a"; "b"] ["a"; "b"] ["x"] 0)) =
    mkApp None EmptyString ["a"; "b"] ["a"; "b"] ["x"; "b"; "a"; "b"] 0.
Proof.
  assert (Hv : valid_rows [1; 0; 1]
                 (mkApp None EmptyString ["a"; "b"] ["a"; "b"] ["x"] 0)).
  { repeat constructor. }
  assert (Hs : [1; 0; 1] = @nil nat -> [1; 0; 1] = @nil nat) by (intros H; exact H).
  destruct (add_selected_appends [1; 0; 1] [1; 0; 1] _ Hv Hs)
    as (items & H2 & E & _).
  rewrite E. cbn [fst].
  inversion H2 as [|? t1 ? r1 Ht1 H2']; subst.
  inversion H2' as [|? t2 ? r2 Ht2 H2'']; subst.
  inversion H2'' as [|? t3 ? r3 Ht3 H2''']; subst.
  inversion H2'''; subst.
  simpl in Ht1, Ht2, Ht3.
  injection Ht1 as <-. injection Ht2 as <-. injection Ht3 as <-.
  reflexivity.
Defined.

(** X4: a row outside the library view among the selected ones makes the
    handler fail before it adds anything: the state is left as it is and
    the failure is all that happens. *)
Theorem add_selected_bad_row (sel_model sel_view : list nat) (a : App) :
  (exists i, In i sel_model /\ List.length (library_model a) <= i) ->
  exists e, add_selected_to_playlist sel_model sel_view a = (a, [Unhandled e]).
Proof.
  intros (i & Hin & Hi).
  assert (H : exists e, item_texts (library_model a) sel_model = Raise e).
  { induction sel_model as [|j sel IH]; [destruct Hin|]. simpl.
    destruct (nth_error (library_model a) j) as [t|] eqn:En; [|now eexists].
    destruct Hin as [Hji|Hin].
    - subst j.
      assert (i < List.length (library_model a))
        by (apply nth_error_Some; congruence).
      lia.
    - destruct (IH Hin) as (e & ->). now exists e. }
  destruct H as (e & E). exists e.
  unfold add_selected_to_playlist, get_selected_library_items. now rewrite E.
Qed.

Lemma add_selected_bad_row_witness :
  exists e,
    add_selected_to_playlist [0; 5] [0; 5]
      (mkApp None EmptyString ["a"] ["a"] [] (-1)) =
    (mkApp None EmptyString ["a"] ["a"] [] (-1), [Unhandled e]).
Proof.
  apply add_selected_bad_row. exists 5. split; [right; left; reflexivity|].
  simpl. lia.
Defined.

(** X5: removing with a current row deletes exactly that row: the entries
    before and after it keep their order, the playlist is one entry
    shorter, and the library is not touched; with no current row (row -1)
    the handler does nothing. *)
Theorem remove_selected_deletes_row (next_row : Z) (a : App) :
  (forall l1 x l2,
      playlist_widget a = l1 ++ x :: l2 ->
      current_row a = Z.of_nat (List.length l1) ->
      remove_selected_from_playlist next_row a =
        set_playlist a (l1 ++ l2) next_row) /\
  ((current_row a < 0)%Z -> remove_selected_from_playlist next_row a = a) /\
  library (remove_selected_from_playlist next_row a) = library a /\
  (List.length (playlist_widget (remove_selected_from_playlist next_row a)) =
   if ((0 <=? current_row a) &&
       (current_row a <? Z.of_nat (List.length (playlist_widget a))))%Z
   then List.length (playlist_widget a) - 1
   else List.length (playlist_widget a)).
Proof.
  split; [|split; [|split]].
  - intros l1 x l2 Hl Hr. unfold remove_selected_from_playlist.
    rewrite Hr, Hl.
    replace (Z.of_nat (List.length l1) >=? 0)%Z with true
      by (symmetry; apply Z.geb_le; lia).
    now rewrite takeItem_middle.
  - intros Hr. unfold remove_selected_from_playlist.
    replace (current_row a >=? 0)%Z with false; [reflexivity|].
    symmetry. rewrite Z.geb_leb. apply Z.leb_gt. lia.
  - unfold remove_selected_from_playlist.
    destruct (current_row a >=? 0)%Z; [|reflexivity].
    now destruct (takeItem _ _).
  - unfold remove_selected_from_playlist.
    destruct (current_row a >=? 0)%Z eqn:E.
    + rewrite Z.geb_leb in E. rewrite E. cbn [andb].
      destruct (takeItem_cases (current_row a) (playlist_widget a))
        as [(l1 & x & l2 & Hl & Hr & ->)|[Hout ->]]; cbn.
      * replace (current_row a <? Z.of_nat (List.length (playlist_widget a)))%Z
          with true
          by (symmetry; apply Z.ltb_lt; rewrite Hl, length_app; simpl; lia).
        rewrite Hl, !length_app. simpl. lia.
      * replace (current_row a <? Z.of_nat (List.length (playlist_widget a)))%Z
          with false; [reflexivity|].
        symmetry. apply Z.ltb_ge. apply Z.leb_le in E. lia.
    + rewrite Z.geb_leb in E. now rewrite E.
Qed.

Lemma remove_selected_deletes_row_witness :
  remove_selected_from_playlist 1
    (mkApp None EmptyString [] [] ["a"; "b"; "c"] 1) =
  mkApp None EmptyString [] [] ["a"; "c"] 1.
Proof.
  exact (proj1 (remove_selected_deletes_row 1
                  (mkApp None EmptyString [] [] ["a"; "b"; "c"] 1))
               ["a"] "b" ["c"] eq_refl eq_refl).
Defined.

(** ** The scanner: frame, repetition, count and order *)

Lemma scan_from_frame (w : World) (a : App) (start : pathlib.Path)
    (evs : list event) :
  root_folder (fst (scan_from w a start evs)) = root_folder a /\
  root_label (fst (scan_from w a start evs)) = root_label a /\
  playlist_widget (fst (scan_from w a start evs)) = playlist_widget a /\
  current_row (fst (scan_from w a start evs)) = current_row a.
Proof.
  unfold scan_from. destruct (scan_walk _ _ _ _); repeat split.
Qed.

Lemma scan_from_repeat (w : World) (a : App) (start : pathlib.Path)
    (evs evs' : list event) :
  fst (scan_from w (fst (scan_from w a start evs)) start evs') =
  fst (scan_from w a start evs).
Proof.
  destruct (scan_from_frame w a start evs) as (Hroot & _).
  unfold scan_from at 1. rewrite Hroot.
  unfold scan_from.
  destruct (scan_walk (root_folder a) start (os_walk w start) []) as [tr|e];
    reflexivity.
Qed.

Lemma scan_folder_frame_aux (w : World) (a : App) :
  root_folder (fst (scan_folder w a)) = root_folder a /\
  root_label (fst (scan_folder w a)) = root_label a /\
  playlist_widget (fst (scan_folder w a)) = playlist_widget a /\
  current_row (fst (scan_folder w a)) = current_row a /\
  fst (scan_folder w (fst (scan_folder w a))) = fst (scan_folder w a).
Proof.
  assert (Hframe :
            root_folder (fst (scan_folder w a)) = root_folder a /\
            root_label (fst (scan_folder w a)) = root_label a /\
            playlist_widget (fst (scan_folder w a)) = playlist_widget a /\
            current_row (fst (scan_folder w a)) = current_row a).
  { unfold scan_folder. destruct (root_folder a) as [r|] eqn:Er.
    - rewrite <- Er. apply scan_from_frame.
    - destruct (String.eqb (pick_directory w) EmptyString).
      + now repeat split.
      + rewrite <- Er. apply scan_from_frame. }
  destruct Hframe as (H1 & H2 & H3 & H4).
  repeat (split; [assumption|]).
  unfold scan_folder at 1. rewrite H1.
  unfold scan_folder.
  destruct (root_folder a) as [r|].
  - apply scan_from_repeat.
  - destruct (String.eqb (pick_directory w) EmptyString);
      [reflexivity | apply scan_from_repeat].
Qed.

(** X6: a scan never touches the root folder, its label, the playlist or
    the current row, whatever the world answers; and scanning again in the
    same world leaves the state the first scan left. *)
Theorem scan_folder_frame_and_repeat (w : World) (a : App) :
  root_folder (fst (scan_folder w a)) = root_folder a /\
  root_label (fst (scan_folder w a)) = root_label a /\
  playlist_widget (fst (scan_folder w a)) = playlist_widget a /\
  current_row (fst (scan_folder w a)) = current_row a /\
  fst (scan_folder w (fst (scan_folder w a))) = fst (scan_folder w a).
Proof. apply scan_folder_frame_aux. Qed.

Lemma Forall2_length' {A B} (R : A -> B -> Prop) (l : list A) (l' : list B) :
  Forall2 R l l' -> List.length l = List.length l'.
Proof. induction 1; simpl; congruence. Qed.

(** X7: a scan of a listing with valid names ends by reporting
    [Found n audio files.], where [n] is the number of files of the walk
    whose lowercased name ends with a recognized extension; the library
    holds exactly [n] entries, the library view shows the whole library
    again, and the only other event is the folder dialog when no root is
    set. *)
Theorem scan_folder_reports_count (w : World) (a : App)
    (start : pathlib.Path) :
  scan_start w a = Some start ->
  (forall r, root_folder a = Some r -> parsed r) ->
  wf_listing w start ->
  let n := List.length (matched_files (os_walk w start)) in
  snd (scan_folder w a) =
    (match root_folder a with
     | Some _ => []
     | None => [GetExistingDirectory "Select Folder to Scan" (home w)]
     end)
    ++ [Information "Scan Complete"
          ("Found " +++ PyStr.str_of_nat n +++ " audio files.")] /\
  List.length (library (fst (scan_folder w a))) = n /\
  library_model (fst (scan_folder w a)) = library (fst (scan_folder w a)).
Proof.
  intros Hs Hr Hwf n.
  destruct (scan_start_parsed w a start Hs Hr) as [Hp Hrf].
  destruct (scan_walk_ok start (root_folder a) Hrf (os_walk w start)
              (os_walk_under w start Hp Hwf) [])
    as (tracks & E & H).
  simpl app in E.
  assert (Hlen : List.length (PyStr.sorted PyStr.lower tracks) = n).
  { rewrite <- (Permutation_length (sorted_perm PyStr.lower tracks)).
    symmetry. apply (Forall2_length' _ _ _ H). }
  rewrite (scan_folder_from w a start Hs). unfold scan_from. rewrite E.
  cbn [fst snd library library_model set_library set_library_model
       populate_library].
  now rewrite Hlen.
Qed.

Lemma scan_folder_reports_count_witness :
  snd (scan_folder (music_world "/music" (EmptyString, false) EmptyString)
                   init) =
    [GetExistingDirectory "Select Folder to Scan" "/home/user";
     Information "Scan Complete" "Found 2 audio files."].
Proof.
  assert (Hs : scan_start (music_world "/music" (EmptyString, false)
                             EmptyString) init =
               Some (pathlib.Path_of "/music")) by reflexivity.
  assert (Hr : forall r, root_folder init = Some r -> parsed r)
    by (intros r; discriminate).
  pose proof (proj1 (scan_folder_reports_count _ _ _ Hs Hr
                       (music_world_wf _ _ _))) as H.
  rewrite H. reflexivity.
Defined.

(** *** Stability of the sort *)

Lemma leb_refl (s : string) : String.leb s s = true.
Proof.
  destruct (String.leb_total s s); assumption.
Qed.

Lemma insert_by_same_key {A} (key : A -> string) (k : string) (x : A)
    (l : list A) :
  filter (fun e => String.eqb (key e) k) (PyStr.insert_by key x l) =
  filter (fun e => String.eqb (key e) k) (x :: l).
Proof.
  induction l as [|y l IH]; [reflexivity|].
  cbn [PyStr.insert_by].
  destruct (String.leb (key x) (key y)) eqn:E; [reflexivity|].
  cbn [filter] in *. rewrite IH.
  destruct (String.eqb (key y) k) eqn:Ey; [|reflexivity].
  destruct (String.eqb (key x) k) eqn:Ex; [|reflexivity].
  apply String.eqb_eq in Ex, Ey. rewrite Ex, Ey, leb_refl in E. discriminate.
Qed.

Lemma sorted_same_key {A} (key : A -> string) (k : string) (l : list A) :
  filter (fun e => String.eqb (key e) k) (PyStr.sorted key l) =
  filter (fun e => String.eqb (key e) k) l.
Proof.
  induction l as [|x l IH]; [reflexivity|].
  cbn [PyStr.sorted]. rewrite insert_by_same_key. cbn [filter].
  now rewrite IH.
Qed.

(** X8: the library of a completed scan holds every recorded entry, each
    as many times as it was recorded, and entries that differ by case only
    (equal lowercased text) stay in the order in which the walk found
    them. *)
Theorem scan_folder_stable (w : World) (a : App) (start : pathlib.Path) :
  scan_start w a = Some start ->
  (forall r, root_folder a = Some r -> parsed r) ->
  wf_listing w start ->
  exists tracks,
    Forall2 (recorded_for start) (matched_files (os_walk w start)) tracks /\
    Permutation tracks (library (fst (scan_folder w a))) /\
    forall k,
      filter (fun e => String.eqb (PyStr.lower e) k)
             (library (fst (scan_folder w a))) =
      filter (fun e => String.eqb (PyStr.lower e) k) tracks.
Proof.
  intros Hs Hr Hwf.
  destruct (scan_folder_ok w a start Hs Hr Hwf)
    as (tracks & _ & H2 & _ & Hl & _).
  exists tracks. rewrite Hl. split; [exact H2|]. split.
  - apply sorted_perm.
  - intros k. apply sorted_same_key.
Qed.

Lemma scan_folder_stable_witness :
  exists tracks,
    Permutation tracks
      (library (fst (scan_folder
                       (music_world "/music" (EmptyString, false) EmptyString)
                       init))).
Proof.
  assert (Hs : scan_start (music_world "/music" (EmptyString, false)
                             EmptyString) init =
               Some (pathlib.Path_of "/music")) by reflexivity.
  assert (Hr : forall r, root_folder init = Some r -> parsed r)
    by (intros r; discriminate).
  destruct (scan_folder_stable _ _ _ Hs Hr (music_world_wf _ _ _))
    as (tracks & _ & Hp & _).
  now exists tracks.
Defined.

(** ** Declined dialogs *)

(** X9: declining a dialog ends the handler with nothing done: a
    cancelled root-folder dialog, a cancelled scan-folder dialog (asked
    only when no root is set), a cancelled name prompt and a cancelled
    destination dialog each leave the state as it was, and the dialogs
    shown so far are all that happened; no file is written. *)
Theorem cancelled_dialogs_do_nothing (w : World) (a : App) :
  (pick_directory w = EmptyString ->
   choose_root w a =
     (a, [GetExistingDirectory "Select Root Music Folder" (home w)]) /\
   (root_folder a = None ->
    scan_folder w a =
      (a, [GetExistingDirectory "Select Folder to Scan" (home w)]))) /\
  (playlist_widget a <> [] -> snd (input_text w) = false ->
   save_playlist w a =
     (a, [GetText "Playlist name" "Enter playlist name (no extension):"])) /\
  (playlist_widget a <> [] -> snd (input_text w) = true ->
   all_space (fst (input_text w)) = false ->
   pick_save_file w (offered_path w a) = EmptyString ->
   save_playlist w a =
     (a, [GetText "Playlist name" "Enter playlist name (no extension):";
          GetSaveFileName "Save playlist as" (offered_path w a)
                          "M3U8 files (*.m3u8)"])).
Proof.
  split; [|split].
  - intros Hp. unfold choose_root, scan_folder. rewrite Hp. cbn.
    split; [reflexivity|]. now intros ->.
  - intros Hne Hok. unfold save_playlist.
    rewrite (length_eqb_0 _ Hne).
    destruct (input_text w) as [n ok]. cbn [snd] in Hok. now subst ok.
  - intros Hne Hok Hsp Hpick. unfold save_playlist, offered_path in *.
    rewrite (length_eqb_0 _ Hne).
    destruct (input_text w) as [n ok]. cbn [fst snd] in Hok, Hsp, Hpick.
    subst ok.
    pose proof (strip_not_all_space _ Hsp) as Hs.
    apply String.eqb_neq in Hs. rewrite Hs. cbn [negb orb].
    now rewrite Hpick.
Qed.

Lemma cancelled_dialogs_do_nothing_witness :
  scan_folder (music_world EmptyString ("x", false) EmptyString) init =
    (init, [GetExistingDirectory "Select Folder to Scan" "/home/user"]).
Proof.
  apply (proj2 (proj1 (cancelled_dialogs_do_nothing
                         (music_world EmptyString ("x", false) EmptyString)
                         init) eq_refl)).
  reflexivity.
Defined.

(** ** Paths: printing, parsing and joining back *)

Section PathRoundTrip.
Import PyStr pathlib.

Lemma Path_of_wf (d : string) : wf_path (Path_of d).
Proof.
  split.
  - rewrite Path_of_alt. cbn [root]. apply splitroot_roots.
  - apply Path_of_tail.
Qed.

(** A well-formed path prints to a string that parses back to it. *)
Lemma Path_of_str_wf (p : Path) : wf_path p -> Path_of (str p) = p.
Proof.
  destruct p as [r l]. intros [Hr Ht]. cbn [root tail] in Hr, Ht.
  assert (Hno : Forall (fun x => has_char posixpath.sep x = false) l)
    by (eapply Forall_impl; [|exact Ht]; now intros x [H _]).
  rewrite Path_of_alt. unfold str. cbn [root tail].
  destruct l as [|x l].
  - destruct Hr as [->|[->| ->]]; reflexivity.
  - assert (Hsplit : split posixpath.sep (join "/" (x :: l)) = x :: l)
      by (apply (split_join posixpath.sep); [discriminate | exact Hno]).
    destruct (join_head x l) as (rest & Hj).
    inversion Ht as [|? ? [Hx Hk] _]; subst.
    destruct x as [|c x']; [discriminate|].
    simpl in Hx. apply orb_false_elim in Hx as [Hc _].
    rewrite Hj in *. simpl append in *.
    destruct Hr as [->|[->| ->]]; simpl append.
    + cbn [String.eqb]. f_equal.
      * simpl. now rewrite Hc.
      * rewrite Hsplit. now apply filter_keeps_id.
    + cbn [String.eqb]. f_equal.
      * simpl. now rewrite Hc.
      * rewrite (split_sep_head "/" _ eq_refl), keeps_empty_filter, Hsplit.
        now apply filter_keeps_id.
    + cbn [String.eqb]. f_equal.
      * simpl. now rewrite Hc.
      * rewrite (split_sep_head "/" _ eq_refl), keeps_empty_filter.
        rewrite (split_sep_head "/" _ eq_refl), keeps_empty_filter, Hsplit.
        now apply filter_keeps_id.
Qed.

Lemma joinpath_wf (p : Path) (t : string) :
  wf_path p -> wf_path (joinpath p t).
Proof.
  intros [Hr Ht]. unfold joinpath.
  destruct (Path_of_wf t) as [Hr' Ht'].
  destruct (String.eqb (root (Path_of t)) EmptyString); [|now split].
  split; cbn [root tail]; [exact Hr | now apply Forall_app].
Qed.

Lemma is_prefix_skipn (pre l : list string) :
  is_prefix pre l = true -> l = pre ++ skipn (List.length pre) l.
Proof.
  revert l. induction pre as [|x pre IH]; intros [|y l] H; simpl in *;
    try reflexivity; try discriminate.
  apply andb_prop in H as [Hx Hp]. apply String.eqb_eq in Hx as ->.
  now rewrite <- (IH l Hp).
Qed.

Lemma Forall_skipn {A} (P : A -> Prop) (n : nat) (l : list A) :
  Forall P l -> Forall P (skipn n l).
Proof.
  revert l. induction n as [|n IH]; intros l H; [exact H|].
  destruct l as [|x l]; [constructor|]. inversion H; subst. now apply IH.
Qed.

Lemma joinpath_relative_to (p base rel : Path) :
  wf_path p ->
  relative_to p base = Ok rel ->
  joinpath base (str rel) = p /\ root rel = EmptyString.
Proof.
  intros [Hr Ht] H. unfold relative_to in H.
  destruct (is_relative_to p base) eqn:E; [|discriminate].
  injection H as <-. unfold is_relative_to in E.
  apply andb_prop in E as [Eroot Epre]. apply String.eqb_eq in Eroot.
  split; [|reflexivity].
  assert (Hwf : wf_path (mkPath EmptyString
                           (skipn (List.length (tail base)) (tail p)))).
  { split; cbn [root tail]; [now left | now apply Forall_skipn]. }
  unfold joinpath. rewrite (Path_of_str_wf _ Hwf). cbn [root tail].
  rewrite <- (is_prefix_skipn _ _ Epre), <- Eroot. now destruct p.
Qed.

(** X10: for a well-formed path [p] that lies under [base], the relative
    path [p.relative_to(base)] has no root, and joining its text back onto
    [base] gives [p] again. *)
Theorem relative_to_joinpath (p base rel : Path) :
  wf_path p ->
  relative_to p base = Ok rel ->
  joinpath base (str rel) = p /\ root rel = EmptyString.
Proof. apply joinpath_relative_to. Qed.

Lemma relative_to_joinpath_witness :
  joinpath (Path_of "/music") (str (mkPath EmptyString ["A"; "song.mp3"])) =
  Path_of "/music/A/song.mp3".
Proof.
  apply (relative_to_joinpath (Path_of "/music/A/song.mp3")
           (Path_of "/music") (mkPath EmptyString ["A"; "song.mp3"])).
  - apply Path_of_wf.
  - reflexivity.
Defined.

End PathRoundTrip.

(** X11: after a scan of a listing with valid names, the library is made
    of one entry per matched file, and joining an entry back onto the
    directory the scan started from (the root folder when one is set) gives
    the path of the file it was recorded for; in particular no entry is an
    absolute path, which would replace the root when joined. *)
Theorem scan_entries_join_back (w : World) (a : App) (start : pathlib.Path) :
  scan_start w a = Some start ->
  (forall r, root_folder a = Some r -> parsed r) ->
  wf_listing w start ->
  exists tracks,
    Permutation tracks (library (fst (scan_folder w a))) /\
    Forall2 (fun rf s =>
               pathlib.joinpath start s =
               pathlib.joinpath (pathlib.Path_of (fst rf)) (snd rf) /\
               pathlib.root (pathlib.Path_of s) = EmptyString)
            (matched_files (os_walk w start)) tracks.
Proof.
  intros Hs Hr Hwf.
  destruct (scan_folder_ok w a start Hs Hr Hwf)
    as (tracks & _ & H2 & _ & Hl & _).
  exists tracks. rewrite Hl. split; [apply sorted_perm|].
  eapply Forall2_impl; [|exact H2].
  intros [r f] s (rel & Hrel & -> & _). cbn [fst snd] in *.
  assert (Hwfp : wf_path (pathlib.joinpath (pathlib.Path_of r) f))
    by (apply joinpath_wf, Path_of_wf).
  destruct (joinpath_relative_to _ _ _ Hwfp Hrel) as [Hj Hroot].
  split; [exact Hj|].
  rewrite Path_of_str_wf; [exact Hroot|].
  unfold pathlib.relative_to in Hrel.
  destruct (pathlib.is_relative_to _ _); [|discriminate].
  injection Hrel as <-. destruct Hwfp as [_ Ht].
  split; cbn; [now left | now apply Forall_skipn].
Qed.

Lemma scan_entries_join_back_witness :
  exists tracks,
    Permutation tracks
      (library (fst (scan_folder
                       (music_world "/music" (EmptyString, false) EmptyString)
                       init))) /\
    Forall (fun s => pathlib.root (pathlib.Path_of s) = EmptyString) tracks.
Proof.
  assert (Hs : scan_start (music_world "/music" (EmptyString, false)
                             EmptyString) init =
               Some (pathlib.Path_of "/music")) by reflexivity.
  assert (Hr : forall r, root_folder init = Some r -> parsed r)
    by (intros r; discriminate).
  destruct (scan_entries_join_back _ _ _ Hs Hr (music_world_wf _ _ _))
    as (tracks & Hp & H2).
  exists tracks. split; [exact Hp|].
  clear Hp. induction H2 as [|x y l l' [_ Hy] _ IH]; constructor; assumption.
Defined.

(** ** Saving to the offered destination *)

Lemma has_char_app (c : ascii) (s t : string) :
  has_char c (s +++ t) = has_char c s || has_char c t.
Proof.
  induction s as [|x s IH]; simpl; [reflexivity|].
  now rewrite IH, orb_assoc.
Qed.

Lemma keeps_m3u8 (name : string) : pathlib.keeps (name +++ ".m3u8") = true.
Proof.
  destruct name as [|c name]; [reflexivity|].
  unfold pathlib.keeps. simpl.
  destruct name; destruct (Ascii.eqb c "."); reflexivity.
Qed.

Lemma Path_eqb_refl (p : pathlib.Path) : pathlib.Path_eqb p p = true.
Proof.
  unfold pathlib.Path_eqb. rewrite String.eqb_refl.
  now destruct (list_eq_dec string_dec (pathlib.tail p) (pathlib.tail p)).
Qed.

Lemma parent_snoc (r : string) (l : list string) (x : string) :
  pathlib.parent (pathlib.mkPath r (l ++ [x])) = pathlib.mkPath r l.
Proof.
  unfold pathlib.parent. cbn [pathlib.tail pathlib.root].
  rewrite removelast_app_one. now destruct l.
Qed.

(** X12: with a root folder set and a name without slash, the destination
    dialog offers a file directly inside the root folder; when the user
    accepts it, in a world where nothing fails, the file is written there
    and holds the playlist entries unchanged, one pair per entry. *)
Theorem save_to_offered_path (w : World) (a : App) (rf : pathlib.Path) :
  healthy w ->
  root_folder a = Some rf ->
  parsed rf ->
  has_char posixpath.sep (PyStr.strip (fst (input_text w))) = false ->
  save_confirmed w a (offered_path w a) ->
  pathlib.parent (pathlib.Path_of (offered_path w a)) = rf /\
  In (FileWritten (pathlib.str (pathlib.Path_of (offered_path w a)))
                  (m3u8_text (playlist_widget a)))
     (snd (save_playlist w a)).
Proof.
  intros Hw Hroot Hp Hname Hc.
  set (name := PyStr.strip (fst (input_text w))) in *.
  assert (Hfile : has_char posixpath.sep (name +++ ".m3u8") = false)
    by (rewrite has_char_app, Hname; reflexivity).
  assert (Hparent : pathlib.parent (pathlib.Path_of (offered_path w a)) = rf).
  { unfold offered_path. rewrite Hroot. fold name.
    rewrite (Path_of_join2 _ _ Hfile), (Path_of_str rf Hp).
    cbn [filter]. rewrite keeps_m3u8. rewrite parent_snoc. now destruct rf. }
  split; [exact Hparent|].
  rewrite (save_playlist_confirmed w Hw a _ Hc), Hparent, Hroot.
  assert (Hsame : same_directory w rf rf = true).
  { unfold same_directory. destruct Hw as (_ & _ & Hres).
    destruct (Hres rf) as (q & ->). apply Path_eqb_refl. }
  assert (Hmap : map (spec_path_line w (Some rf) rf) (playlist_widget a) =
                 playlist_widget a).
  { induction (playlist_widget a) as [|t l IH]; [reflexivity|].
    cbn [map]. rewrite IH. unfold spec_path_line. now rewrite Hsame. }
  rewrite Hmap. right. right. left. reflexivity.
Qed.

Lemma save_to_offered_path_witness :
  In (FileWritten "/music/my list.m3u8"
        (m3u8_text ["A/song.mp3"; "b.flac"]))
     (snd (save_playlist
             (music_world "/music" (" my list ", true) "/music/my list.m3u8")
             (mkApp (Some (pathlib.Path_of "/music")) EmptyString [] []
                    ["A/song.mp3"; "b.flac"] 0))).
Proof.
  assert (Hc : save_confirmed
                 (music_world "/music" (" my list ", true)
                    "/music/my list.m3u8")
                 (mkApp (Some (pathlib.Path_of "/music")) EmptyString [] []
                        ["A/song.mp3"; "b.flac"] 0)
                 (offered_path
                    (music_world "/music" (" my list ", true)
                       "/music/my list.m3u8")
                    (mkApp (Some (pathlib.Path_of "/music")) EmptyString [] []
                           ["A/song.mp3"; "b.flac"] 0))).
  { split; [discriminate|]. split; [reflexivity|]. split; [reflexivity|].
    split; [reflexivity | discriminate]. }
  assert (Hp : parsed (pathlib.Path_of "/music")) by (now exists "/music").
  assert (Hn : has_char posixpath.sep
                 (PyStr.strip
                    (fst (input_text
                            (music_world "/music" (" my list ", true)
                               "/music/my list.m3u8")))) = false)
    by reflexivity.
  pose proof (proj2 (save_to_offered_path
                       (music_world "/music" (" my list ", true)
                          "/music/my list.m3u8")
                       (mkApp (Some (pathlib.Path_of "/music")) EmptyString
                              [] [] ["A/song.mp3"; "b.flac"] 0)
                       (pathlib.Path_of "/music")
                       (music_world_healthy _ _ _)
                       eq_refl Hp Hn Hc)) as H.
  vm_compute in H |- *. exact H.
Defined.

(** ** Saving: what failures leave behind *)

Section AppendFacts.
Variable w : World.








End AppendFacts.



(** X14: when the file cannot be opened, nothing is written: after the two
    dialogs the only event is the [Save failed] notice carrying the
    error's message, and the state is left as it was. *)
Theorem save_playlist_open_fails (w : World) (a : App) (path e : string) :
  save_confirmed w a path ->
  open_error w (pathlib.str (pathlib.Path_of path)) = Some e ->
  save_playlist w a =
    (a,
     [GetText "Playlist name" "Enter playlist name (no extension):";
      GetSaveFileName "Save playlist as" (offered_path w a)
                      "M3U8 files (*.m3u8)";
      Critical "Save failed" ("Could not save playlist: " +++ e)]).
Proof.
  intros (Hne & Hok & Hsp & Hpick & Hpath) Hopen.
  unfold save_playlist, offered_path in *.
  rewrite (length_eqb_0 _ Hne).
  destruct (input_text w) as [name ok]; cbn [fst snd] in Hok, Hsp, Hpick.
  subst ok. pose proof (strip_not_all_space _ Hsp) as Hs.
  apply String.eqb_neq in Hs. rewrite Hs. cbn [negb orb fst].
  rewrite Hpick. apply String.eqb_neq in Hpath. now rewrite Hpath, Hopen.
Qed.

Lemma save_playlist_open_fails_witness :
  save_playlist
    (faulty_world (Some "Permission denied") (fun _ => None)
       (plain_resolve (Ok "/home/user")) ("list", true) "/music/list.m3u8")
    (mkApp None EmptyString [] [] ["b.flac"] 0) =
  (mkApp None EmptyString [] [] ["b.flac"] 0,
   [GetText "Playlist name" "Enter playlist name (no extension):";
    GetSaveFileName "Save playlist as" "/home/user/list.m3u8"
                    "M3U8 files (*.m3u8)";
    Critical "Save failed" "Could not save playlist: Permission denied"]).
Proof.
  assert (Hc : save_confirmed
                 (faulty_world (Some "Permission denied") (fun _ => None)
                    (plain_resolve (Ok "/home/user")) ("list", true)
                    "/music/list.m3u8")
                 (mkApp None EmptyString [] [] ["b.flac"] 0)
                 "/music/list.m3u8").
  { split; [discriminate|]. split; [reflexivity|]. split; [reflexivity|].
    split; [reflexivity | discriminate]. }
  exact (save_playlist_open_fails _ _ _ "Permission denied" Hc eq_refl).
Defined.

(** X15: with a root folder set, if resolving the output directory fails
    while the writes succeed, the save stops inside the first track: the
    file is left holding the header line and one [#EXTINF:,] line, and the
    failure is reported. *)
Theorem save_playlist_resolve_fails (w : World) (a : App)
    (path e : string) (rf : pathlib.Path) :
  save_confirmed w a path ->
  open_error w (pathlib.str (pathlib.Path_of path)) = None ->
  (forall n, write_error w n = None) ->
  root_folder a = Some rf ->
  resolve w (pathlib.parent (pathlib.Path_of path)) = Raise e ->
  save_playlist w a =
    (a,
     [GetText "Playlist name" "Enter playlist name (no extension):";
      GetSaveFileName "Save playlist as" (offered_path w a)
                      "M3U8 files (*.m3u8)";
      FileWritten (pathlib.str (pathlib.Path_of path))
                  ("#EXTM3U" +++ PyStr.nl +++ "#EXTINF:," +++ PyStr.nl);
      Critical "Save failed" ("Could not save playlist: " +++ e)]).
Proof.
  intros (Hne & Hok & Hsp & Hpick & Hpath) Hopen Hwr Hroot Hres.
  unfold save_playlist, offered_path in *.
  rewrite (length_eqb_0 _ Hne).
  destruct (input_text w) as [name ok]; cbn [fst snd] in Hok, Hsp, Hpick.
  subst ok. pose proof (strip_not_all_space _ Hsp) as Hs.
  apply String.eqb_neq in Hs. rewrite Hs. cbn [negb orb fst].
  rewrite Hpick. apply String.eqb_neq in Hpath. rewrite Hpath, Hopen, Hroot.
  destruct (playlist_widget a) as [|t l]; [congruence|].
  unfold write_playlist, io_bind at 1. unfold f_write at 1. rewrite Hwr.
  cbn [io_for]. unfold io_bind at 1. unfold write_track.
  unfold io_bind at 1. unfold f_write at 1. rewrite Hwr.
  unfold io_bind at 1. unfold saved_in_root, io_bind at 1, io_lift at 1.
  rewrite Hres. reflexivity.
Qed.

Lemma save_playlist_resolve_fails_witness :
  In (FileWritten "/music/sub/list.m3u8"
        ("#EXTM3U" +++ PyStr.nl +++ "#EXTINF:," +++ PyStr.nl))
     (snd (save_playlist
             (faulty_world None (fun _ => None)
                (fun _ => Raise "Symlink loop") ("list", true)
                "/music/sub/list.m3u8")
             (mkApp (Some (pathlib.Path_of "/music")) EmptyString [] []
                    ["A/song.mp3"; "b.flac"] 0))).
Proof.
  assert (Hc : save_confirmed
                 (faulty_world None (fun _ => None)
                    (fun _ => Raise "Symlink loop") ("list", true)
                    "/music/sub/list.m3u8")
                 (mkApp (Some (pathlib.Path_of "/music")) EmptyString [] []
                        ["A/song.mp3"; "b.flac"] 0)
                 "/music/sub/list.m3u8").
  { split; [discriminate|]. split; [reflexivity|]. split; [reflexivity|].
    split; [reflexivity | discriminate]. }
  rewrite (save_playlist_resolve_fails
             (faulty_world None (fun _ => None)
                (fun _ => Raise "Symlink loop") ("list", true)
                "/music/sub/list.m3u8")
             (mkApp (Some (pathlib.Path_of "/music")) EmptyString [] []
                    ["A/song.mp3"; "b.flac"] 0)
             "/music/sub/list.m3u8" "Symlink loop"
             (pathlib.Path_of "/music") Hc eq_refl (fun _ => eq_refl)
             eq_refl eq_refl).
  right. right. left. reflexivity.
Defined.

(** X16: the handler around the relative path also catches a failing
    write: for a one-entry playlist saved outside the root folder, if the
    write of the relative line fails while the other writes succeed, the
    entry is written unchanged in its place and the save is reported as
    done. *)
Theorem save_playlist_write_retry (w : World) (a : App)
    (path e t rel : string) (rf : pathlib.Path) :
  save_confirmed w a path ->
  open_error w (pathlib.str (pathlib.Path_of path)) = None ->
  write_error w 2 = Some e ->
  (forall n, n <> 2 -> write_error w n = None) ->
  root_folder a = Some rf ->
  playlist_widget a = [t] ->
  same_directory w (pathlib.parent (pathlib.Path_of path)) rf = false ->
  (forall p, exists q, resolve w p = Ok q) ->
  posixpath.relpath (getcwd w) (pathlib.str (pathlib.joinpath rf t))
    (pathlib.str (pathlib.parent (pathlib.Path_of path))) = Ok rel ->
  save_playlist w a =
    (a,
     [GetText "Playlist name" "Enter playlist name (no extension):";
      GetSaveFileName "Save playlist as" (offered_path w a)
                      "M3U8 files (*.m3u8)";
      FileWritten (pathlib.str (pathlib.Path_of path))
                  ("#EXTM3U" +++ PyStr.nl +++ "#EXTINF:," +++ PyStr.nl +++
                   t +++ PyStr.nl);
      Information "Saved"
        ("Playlist saved to " +++ pathlib.str (pathlib.Path_of path))]).
Proof.
  intros (Hne & Hok & Hsp & Hpick & Hpath) Hopen Hw2 Hwr Hroot Hpl Hsame
         Hres Hrel.
  unfold save_playlist, offered_path in *.
  rewrite (length_eqb_0 _ Hne).
  destruct (input_text w) as [name ok]; cbn [fst snd] in Hok, Hsp, Hpick.
  subst ok. pose proof (strip_not_all_space _ Hsp) as Hs.
  apply String.eqb_neq in Hs. rewrite Hs. cbn [negb orb fst].
  rewrite Hpick. apply String.eqb_neq in Hpath. rewrite Hpath, Hopen, Hroot.
  rewrite Hpl.
  unfold write_playlist, io_bind at 1. unfold f_write at 1.
  rewrite (Hwr 0) by discriminate.
  cbn [io_for]. unfold io_bind at 1. unfold write_track.
  unfold io_bind at 1. unfold f_write at 1. rewrite (Hwr 1) by discriminate.
  unfold io_bind at 1.
  unfold same_directory in Hsame.
  unfold saved_in_root, io_bind at 1, io_lift at 1.
  destruct (Hres (pathlib.parent (pathlib.Path_of path))) as (p' & Ep).
  destruct (Hres rf) as (r' & Er). rewrite Ep, Er in *.
  unfold io_bind at 1, io_lift at 1, io_ret at 1. rewrite Hsame.
  unfold io_try, io_bind at 1, io_lift at 1. rewrite Hrel.
  unfold f_write at 1. rewrite Hw2.
  unfold f_write at 1. rewrite (Hwr 3) by discriminate.
  unfold io_ret. reflexivity.
Qed.

Lemma save_playlist_write_retry_witness :
  In (FileWritten "/music/sub/list.m3u8"
        ("#EXTM3U" +++ PyStr.nl +++ "#EXTINF:," +++ PyStr.nl +++
         "b.flac" +++ PyStr.nl))
     (snd (save_playlist
             (faulty_world None
                (fun n => if n =? 2 then Some "Disk error" else None)
                (plain_resolve (Ok "/home/user")) ("list", true)
                "/music/sub/list.m3u8")
             (mkApp (Some (pathlib.Path_of "/music")) EmptyString [] []
                    ["b.flac"] 0))).
Proof.
  assert (Hc : save_confirmed
                 (faulty_world None
                    (fun n => if n =? 2 then Some "Disk error" else None)
                    (plain_resolve (Ok "/home/user")) ("list", true)
                    "/music/sub/list.m3u8")
                 (mkApp (Some (pathlib.Path_of "/music")) EmptyString [] []
                        ["b.flac"] 0)
                 "/music/sub/list.m3u8").
  { split; [discriminate|]. split; [reflexivity|]. split; [reflexivity|].
    split; [reflexivity | discriminate]. }
  assert (Hwr : forall n, n <> 2 ->
                  write_error
                    (faulty_world None
                       (fun n => if n =? 2 then Some "Disk error" else None)
                       (plain_resolve (Ok "/home/user")) ("list", true)
                       "/music/sub/list.m3u8") n = None).
  { intros n Hn. cbn. apply Nat.eqb_neq in Hn. now rewrite Hn. }
  assert (Hres : forall p, exists q,
               resolve
                 (faulty_world None
                    (fun n => if n =? 2 then Some "Disk error" else None)
                    (plain_resolve (Ok "/home/user")) ("list", true)
                    "/music/sub/list.m3u8") p = Ok q).
  { intros p. cbn. unfold plain_resolve, posixpath.abspath.
    destruct (posixpath.isabs (pathlib.str p)); cbn; eauto. }
  rewrite (save_playlist_write_retry
             (faulty_world None
                (fun n => if n =? 2 then Some "Disk error" else None)
                (plain_resolve (Ok "/home/user")) ("list", true)
                "/music/sub/list.m3u8")
             (mkApp (Some (pathlib.Path_of "/music")) EmptyString [] []
                    ["b.flac"] 0)
             "/music/sub/list.m3u8" "Disk error" "b.flac" "../b.flac"
             (pathlib.Path_of "/music") Hc eq_refl eq_refl Hwr eq_refl
             eq_refl eq_refl Hres eq_refl).
  right. right. left. reflexivity.
Defined.

(** ** [normpath] on absolute paths *)

Section NormFacts.
Import PyStr posixpath.

Lemma clean_not_dotdot (x : string) : clean x -> String.eqb x ".." = false.
Proof. intros (_ & _ & _ & H). now apply String.eqb_neq. Qed.

Lemma clean_step (acc : list string) (x : string) :
  clean x -> normpath_step true acc x = acc ++ [x].
Proof.
  intros (Hs & H1 & H2 & H3). unfold normpath_step.
  apply String.eqb_neq in H1, H2, H3. now rewrite H1, H2, H3.
Qed.

Lemma Forall_last {A} (P : A -> Prop) (l : list A) (d : A) :
  Forall P l -> l <> [] -> P (last l d).
Proof.
  induction 1 as [|x l Hx Hl IH]; [congruence|]. intros _.
  destruct l as [|y l]; [exact Hx|]. apply IH. discriminate.
Qed.

Lemma Forall_removelast {A} (P : A -> Prop) (l : list A) :
  Forall P l -> Forall P (removelast l).
Proof.
  induction 1 as [|x l Hx Hl IH]; [constructor|].
  destruct l as [|y l]; [constructor|]. now constructor.
Qed.

Lemma dotdot_step (acc : list string) :
  Forall clean acc -> normpath_step true acc ".." = removelast acc.
Proof.
  intros Hacc. unfold normpath_step. cbn [String.eqb Ascii.eqb].
  change (String.eqb ".." EmptyString) with false.
  change (String.eqb ".." ".") with false.
  change (String.eqb ".." "..") with true.
  cbn [orb negb andb].
  destruct acc as [|y acc]; [reflexivity|].
  rewrite (clean_not_dotdot _ (Forall_last _ _ EmptyString Hacc
                                 ltac:(discriminate))).
  reflexivity.
Qed.

(** The loop of [normpath] on a path that starts with a slash keeps its
    stack clean whatever component comes. *)
Lemma step_keeps_clean (acc : list string) (x : string) :
  Forall clean acc -> has_char sep x = false ->
  Forall clean (normpath_step true acc x).
Proof.
  intros Hacc Hx.
  destruct (String.eqb x EmptyString) eqn:E1.
  { unfold normpath_step. now rewrite E1. }
  destruct (String.eqb x ".") eqn:E2.
  { unfold normpath_step. now rewrite E1, E2. }
  destruct (String.eqb x "..") eqn:E3.
  { apply String.eqb_eq in E3 as ->. rewrite dotdot_step by exact Hacc.
    now apply Forall_removelast. }
  apply String.eqb_neq in E1, E2, E3.
  rewrite clean_step by (repeat split; assumption).
  apply Forall_app. split; [exact Hacc|]. repeat constructor; assumption.
Qed.

Lemma fold_keeps_clean (comps acc : list string) :
  Forall clean acc -> Forall (fun x => has_char sep x = false) comps ->
  Forall clean (fold_left (normpath_step true) comps acc).
Proof.
  revert acc. induction comps as [|x comps IH]; intros acc Hacc Hc; [exact Hacc|].
  inversion Hc; subst. cbn [fold_left]. apply IH; [|assumption].
  now apply step_keeps_clean.
Qed.

Lemma fold_clean_pushes (comps acc : list string) :
  Forall clean comps ->
  fold_left (normpath_step true) comps acc = acc ++ comps.
Proof.
  revert acc. induction comps as [|x comps IH]; intros acc Hc.
  - now rewrite app_nil_r.
  - inversion Hc; subst. cbn [fold_left].
    rewrite clean_step by assumption. rewrite IH by assumption.
    now rewrite <- app_assoc.
Qed.

Lemma removelast_firstn_len {A} (l : list A) (n : nat) :
  n < List.length l -> removelast (firstn (S n) l) = firstn n l.
Proof.
  revert l. induction n as [|n IH]; intros [|x l] H; simpl in H; try lia.
  - now destruct l.
  - specialize (IH l ltac:(lia)).
    change (firstn (S (S n)) (x :: l)) with (x :: firstn (S n) l).
    change (firstn (S n) (x :: l)) with (x :: firstn n l).
    rewrite <- IH. destruct l as [|y l]; [simpl in H; lia|]. reflexivity.
Qed.

Lemma Forall_take {A} (P : A -> Prop) (n : nat) (l : list A) :
  Forall P l -> Forall P (firstn n l).
Proof.
  revert l. induction n as [|n IH]; intros l H; [constructor|].
  destruct l as [|x l]; [constructor|]. inversion H; subst.
  constructor; [assumption | now apply IH].
Qed.

Lemma fold_dotdot_pops (k : nat) (acc : list string) :
  Forall clean acc -> k <= List.length acc ->
  fold_left (normpath_step true) (repeat ".." k) acc =
  firstn (List.length acc - k) acc.
Proof.
  revert acc. induction k as [|k IH]; intros acc Hacc Hk.
  - cbn. now rewrite Nat.sub_0_r, firstn_all.
  - cbn [repeat fold_left]. rewrite dotdot_step by exact Hacc.
    assert (Hrl : removelast acc = firstn (List.length acc - 1) acc).
    { rewrite <- (firstn_all acc) at 1.
      replace (List.length acc) with (S (List.length acc - 1)) at 1 by lia.
      apply removelast_firstn_len. lia. }
    rewrite Hrl.
    rewrite IH.
    + rewrite length_firstn, firstn_firstn.
      f_equal. lia.
    + apply Forall_take. exact Hacc.
    + rewrite length_firstn. lia.
Qed.

Lemma fold_skips_empty (n : nat) (comps acc : list string) (b : bool) :
  fold_left (normpath_step b) (repeat EmptyString n ++ comps) acc =
  fold_left (normpath_step b) comps acc.
Proof. induction n as [|n IH]; [reflexivity | exact IH]. Qed.

Lemma last_char_app (a b : string) :
  b <> EmptyString -> last_char (a +++ b) = last_char b.
Proof.
  intros Hb. induction a as [|c a IH]; [reflexivity|].
  cbn [append last_char]. rewrite IH.
  destruct (a +++ b) eqn:E; [|reflexivity].
  destruct a; [cbn in E; congruence | discriminate].
Qed.

Lemma last_char_in (s : string) (c : ascii) :
  last_char s = Some c -> has_char c s = true.
Proof.
  induction s as [|x s IH]; [discriminate|]. cbn [last_char has_char].
  destruct s as [|y s].
  - intros [= ->]. now rewrite Ascii.eqb_refl.
  - intros H. rewrite (IH H). apply orb_true_r.
Qed.

Lemma plain_not_ends_with_sep (a b : string) :
  plain b -> ends_with_sep (a +++ b) = false.
Proof.
  intros [Hs Hne]. unfold ends_with_sep.
  destruct (endswith (a +++ b) "/") eqn:E; [|reflexivity].
  destruct (endswith_elim _ _ E) as (pre & Hp).
  assert (H : last_char (a +++ b) = Some sep).
  { rewrite Hp. now rewrite last_char_app by discriminate. }
  rewrite last_char_app in H by exact Hne.
  apply last_char_in in H. congruence.
Qed.

Lemma plain_not_abs (b : string) : plain b -> startswith b "/" = false.
Proof. intros [Hs _]. now apply no_sep_not_abs. Qed.

Lemma clean_plain (x : string) : clean x -> plain x.
Proof. intros (H & Hne & _). now split. Qed.

Lemma dotdot_plain : plain "..".
Proof. split; [reflexivity | discriminate]. Qed.

Lemma join_cons2 (sp x y : string) (l : list string) :
  PyStr.join sp (x :: y :: l) = x +++ sp +++ PyStr.join sp (y :: l).
Proof. reflexivity. Qed.

Lemma join_app (l1 l2 : list string) :
  l1 <> [] -> l2 <> [] ->
  PyStr.join "/" (l1 ++ l2) =
  PyStr.join "/" l1 +++ "/" +++ PyStr.join "/" l2.
Proof.
  intros H1 H2. induction l1 as [|x l1 IH]; [congruence|].
  destruct l1 as [|y l1].
  - destruct l2 as [|z l2]; [congruence | reflexivity].
  - change ((x :: y :: l1) ++ l2) with (x :: y :: (l1 ++ l2)).
    rewrite !join_cons2.
    change (y :: l1 ++ l2) with ((y :: l1) ++ l2).
    rewrite IH by discriminate. now rewrite !append_assoc.
Qed.

Lemma join_plain_head (x : string) (l : list string) :
  plain x -> startswith (PyStr.join "/" (x :: l)) "/" = false.
Proof.
  intros [Hs Hne]. destruct (join_head x l) as (r & ->).
  destruct x as [|c x]; [congruence|].
  cbn in Hs. apply orb_false_elim in Hs as [Hc _].
  change (startswith (String c x +++ r) "/")
    with (Ascii.eqb sep c && startswith (x +++ r) EmptyString).
  now rewrite Ascii.eqb_sym, Hc.
Qed.

Lemma join_plain_nonempty (x : string) (l : list string) :
  plain x -> PyStr.join "/" (x :: l) <> EmptyString.
Proof.
  intros [_ Hne]. destruct (join_head x l) as (r & ->).
  destruct x; [congruence | discriminate].
Qed.

(** [os.path.join] of plain components is their text joined by slashes. *)
Lemma join_plain (c : string) (cs : list string) :
  Forall plain (c :: cs) -> posixpath.join c cs = PyStr.join "/" (c :: cs).
Proof.
  unfold posixpath.join.
  assert (H : forall cs acc l,
             Forall plain cs -> l <> [] -> Forall plain l ->
             acc = PyStr.join "/" l ->
             fold_left join2 cs acc = PyStr.join "/" (l ++ cs)).
  { clear. induction cs as [|x cs IH]; intros acc l Hcs Hl Hpl ->.
    - now rewrite app_nil_r.
    - inversion Hcs as [|? ? Hx Hcs']; subst. cbn [fold_left].
      replace (l ++ x :: cs) with ((l ++ [x]) ++ cs)
        by (now rewrite <- app_assoc).
      apply IH; [assumption | now destruct l | |].
      + apply Forall_app. split; [assumption|].
        constructor; [exact Hx | constructor].
      + unfold join2. rewrite (plain_not_abs x Hx).
        destruct (exists_last Hl) as (l' & y & ->).
        apply Forall_app in Hpl as [_ Hy]. inversion Hy as [|? ? Hy' _]; subst.
        destruct (endswith_elim _ _ (endswith_join_last l' y)) as (pre & Ej).
        rewrite Ej, (plain_not_ends_with_sep pre y Hy').
        destruct (String.eqb (pre +++ y) EmptyString) eqn:E.
        { apply String.eqb_eq in E. destruct Hy' as [_ Hne].
          destruct pre; [cbn in E; congruence | discriminate]. }
        cbn [orb]. rewrite <- Ej.
        now rewrite (join_app (l' ++ [y]) [x]) by (try discriminate; now destruct l'). }
  intros Hall. apply (H cs c [c]); [now inversion Hall | discriminate | |reflexivity].
  inversion Hall; subst. constructor; [assumption | constructor].
Qed.

Lemma common_len_le (a b : list string) : common_len a b <= List.length a.
Proof.
  revert b. induction a as [|x a IH]; intros [|y b]; cbn; try lia.
  destruct (String.eqb x y); [specialize (IH b)|]; lia.
Qed.

Lemma common_len_firstn (a b : list string) :
  firstn (common_len a b) a = firstn (common_len a b) b.
Proof.
  revert b. induction a as [|x a IH]; intros [|y b]; cbn; try reflexivity.
  destruct (String.eqb x y) eqn:E; [|reflexivity].
  apply String.eqb_eq in E as ->. cbn. now rewrite IH.
Qed.

End NormFacts.

Section RelpathFacts.
Import PyStr posixpath.

Lemma join_no_leading_sep (l : list string) :
  Forall plain l -> startswith (PyStr.join "/" l) "/" = false.
Proof.
  intros H. destruct l as [|x l]; [reflexivity|].
  inversion H; subst. now apply join_plain_head.
Qed.

Lemma startswith_nil (s : string) : startswith s EmptyString = true.
Proof. now destruct s. Qed.

Lemma initial_slashes_parts (n : nat) (l : list string) :
  n = 1 \/ n = 2 -> Forall plain l ->
  initial_slashes (slashes n +++ PyStr.join "/" l) = n.
Proof.
  intros Hn Hl. pose proof (join_no_leading_sep l Hl) as Hj.
  unfold initial_slashes.
  destruct Hn as [-> | ->]; cbn [slashes append startswith];
    rewrite ?startswith_nil, ?Ascii.eqb_refl, ?Hj; reflexivity.
Qed.

Lemma split_parts (n : nat) (l : list string) :
  n = 1 \/ n = 2 -> Forall plain l ->
  split sep (slashes n +++ PyStr.join "/" l) =
  repeat EmptyString n ++
  (match l with [] => [EmptyString] | _ => l end).
Proof.
  intros Hn Hl.
  assert (Hj : split sep (PyStr.join "/" l) =
               match l with [] => [EmptyString] | _ => l end).
  { destruct l as [|x l]; [reflexivity|].
    apply (split_join sep); [discriminate|].
    eapply Forall_impl; [|exact Hl]. now intros y [Hy _]. }
  destruct Hn as [-> | ->]; cbn [slashes append repeat app].
  - now rewrite (split_sep_head "/" _ eq_refl), Hj.
  - now rewrite !(split_sep_head "/" _ eq_refl), Hj.
Qed.

(** [normpath] of a path in parts: the root slashes come back and the
    components are those the loop leaves. *)
Lemma normpath_parts (n : nat) (l : list string) :
  n = 1 \/ n = 2 -> Forall plain l ->
  normpath (slashes n +++ PyStr.join "/" l) =
  slashes n +++ PyStr.join "/" (fold_left (normpath_step true) l []).
Proof.
  intros Hn Hl. unfold normpath.
  rewrite (initial_slashes_parts n l Hn Hl), (split_parts n l Hn Hl).
  rewrite fold_skips_empty.
  assert (Hfold : fold_left (normpath_step (negb (n =? 0)))
                    (match l with [] => [EmptyString] | _ => l end) [] =
                  fold_left (normpath_step true) l []).
  { replace (negb (n =? 0)) with true by (destruct Hn as [-> | ->]; reflexivity).
    now destruct l. }
  rewrite Hfold.
  destruct Hn as [-> | ->]; reflexivity.
Qed.

(** [normpath] of an absolute path: one or two slashes, then clean
    components. *)
Lemma normpath_abs (p : string) :
  isabs p = true ->
  exists n comps,
    (n = 1 \/ n = 2) /\ Forall clean comps /\
    normpath p = slashes n +++ PyStr.join "/" comps.
Proof.
  intros Habs. unfold isabs in Habs. unfold normpath.
  destruct p as [|c p]; [discriminate|].
  change (String.eqb (String c p) EmptyString) with false. cbv iota.
  assert (Hn : initial_slashes (String c p) = 1 \/
               initial_slashes (String c p) = 2).
  { unfold initial_slashes. rewrite Habs.
    destruct (_ && _); [now right | now left]. }
  set (n := initial_slashes (String c p)) in *.
  exists n, (fold_left (normpath_step true) (split sep (String c p)) []).
  split; [exact Hn|]. split.
  - apply fold_keeps_clean; [constructor | apply split_parts_no_sep].
  - replace (negb (n =? 0)) with true
      by (destruct Hn as [-> | ->]; reflexivity).
    destruct Hn as [-> | ->]; reflexivity.
Qed.

Lemma lstrip_char_plain_head (x : string) (l : list string) :
  plain x ->
  lstrip_char sep (PyStr.join "/" (x :: l)) = PyStr.join "/" (x :: l).
Proof.
  intros [Hs Hne]. destruct (join_head x l) as (r & ->).
  destruct x as [|c x]; [congruence|].
  cbn in Hs. apply orb_false_elim in Hs as [Hc _].
  cbn [append lstrip_char]. now rewrite Hc.
Qed.

Lemma tail_list_parts (n : nat) (l : list string) :
  n = 1 \/ n = 2 -> Forall plain l ->
  tail_list (slashes n +++ PyStr.join "/" l) = l.
Proof.
  intros Hn Hl. unfold tail_list.
  assert (Hstrip : lstrip_char sep (slashes n +++ PyStr.join "/" l) =
                   PyStr.join "/" l).
  { assert (H0 : lstrip_char sep (PyStr.join "/" l) = PyStr.join "/" l).
    { destruct l as [|x l]; [reflexivity|]. inversion Hl; subst.
      now apply lstrip_char_plain_head. }
    destruct Hn as [-> | ->]; cbn [slashes append lstrip_char];
      change (Ascii.eqb "/" sep) with true; cbv iota; exact H0. }
  rewrite Hstrip. destruct l as [|x l]; [reflexivity|].
  inversion Hl as [|? ? Hx Hl']; subst.
  pose proof (join_plain_nonempty x l Hx) as Hne.
  apply String.eqb_neq in Hne. rewrite Hne.
  apply (split_join sep); [discriminate|].
  eapply Forall_impl; [|exact Hl]. now intros y [Hy _].
Qed.

Lemma slashes_ends_with_sep (n : nat) :
  n = 1 \/ n = 2 -> ends_with_sep (slashes n) = true.
Proof. intros [-> | ->]; reflexivity. Qed.

(** Joining relative components onto a normalised absolute path. *)
Lemma join2_parts (n : nat) (sa rc : list string) :
  n = 1 \/ n = 2 -> Forall plain sa -> Forall plain rc -> rc <> [] ->
  join2 (slashes n +++ PyStr.join "/" sa) (PyStr.join "/" rc) =
  slashes n +++ PyStr.join "/" (sa ++ rc).
Proof.
  intros Hn Hsa Hrc Hne. unfold join2.
  rewrite (join_no_leading_sep rc Hrc).
  destruct sa as [|x sa].
  - cbn [PyStr.join app]. rewrite append_nil_r.
    rewrite (slashes_ends_with_sep n Hn). now rewrite orb_true_r.
  - assert (Hs : String.eqb (slashes n +++ PyStr.join "/" (x :: sa))
                   EmptyString = false)
      by (destruct Hn as [-> | ->]; reflexivity).
    rewrite Hs. cbn [orb].
    assert (He : ends_with_sep (slashes n +++ PyStr.join "/" (x :: sa))
                 = false).
    { assert (Hx : x :: sa <> []) by discriminate.
      destruct (exists_last Hx) as (l' & y & E). rewrite E in *.
      apply Forall_app in Hsa as [_ Hy]. inversion Hy as [|? ? Hy' _]; subst.
      destruct (endswith_elim _ _ (endswith_join_last l' y)) as (pre & ->).
      rewrite <- append_assoc. now apply plain_not_ends_with_sep. }
    rewrite He. rewrite join_app by (assumption || discriminate).
    now rewrite !append_assoc.
Qed.

Lemma dot_step (acc : list string) (b : bool) :
  normpath_step b acc "." = acc.
Proof. reflexivity. Qed.

(** The relative path computed by [relpath], joined onto the absolute form
    of [start] and normalised, is the absolute form of [path]. *)
Lemma relpath_back (cwd : result string) (path start rel S P : string) :
  (forall c, cwd = Ok c -> isabs c = true) ->
  abspath cwd start = Ok S ->
  abspath cwd path = Ok P ->
  initial_slashes S = initial_slashes P ->
  relpath cwd path start = Ok rel ->
  normpath (join2 S rel) = P.
Proof.
  intros Hcwd HS HP Hini Hrel.
  assert (Habs : forall q Q, abspath cwd q = Ok Q ->
                   exists n comps, (n = 1 \/ n = 2) /\ Forall clean comps /\
                                   Q = slashes n +++ PyStr.join "/" comps).
  { intros q Q H. unfold abspath in H.
    destruct (isabs q) eqn:Eq.
    - injection H as <-. now apply normpath_abs.
    - destruct cwd as [c|e]; [|discriminate]. cbn in H. injection H as <-.
      apply normpath_abs. specialize (Hcwd c eq_refl).
      unfold join2. unfold isabs in Eq. rewrite Eq.
      unfold isabs in *. destruct c as [|x c]; [discriminate|].
      assert (Happ : forall t, startswith (String x c +++ t) "/" = true).
      { intros t. cbn [append startswith] in Hcwd |- *.
        rewrite startswith_nil in *. exact Hcwd. }
      destruct (_ || _); apply Happ. }
  destruct (Habs _ _ HS) as (nS & sa & HnS & Hsa & ->).
  destruct (Habs _ _ HP) as (nP & pa & HnP & Hpa & ->).
  assert (Hsa' : Forall plain sa)
    by (eapply Forall_impl; [|exact Hsa]; apply clean_plain).
  assert (Hpa' : Forall plain pa)
    by (eapply Forall_impl; [|exact Hpa]; apply clean_plain).
  rewrite !initial_slashes_parts in Hini by assumption. subst nP.
  unfold relpath in Hrel.
  destruct (String.eqb path EmptyString); [discriminate|].
  rewrite HS, HP in Hrel. cbn [rbind] in Hrel.
  rewrite !tail_list_parts in Hrel by assumption.
  set (i := common_len sa pa) in *.
  pose proof (common_len_le sa pa) as Hi. fold i in Hi.
  pose proof (common_len_firstn sa pa) as Hfirst. fold i in Hfirst.
  assert (Hfold : forall rc,
             Forall plain rc -> rc <> [] ->
             fold_left (normpath_step true) rc sa = pa ->
             normpath (join2 (slashes nS +++ PyStr.join "/" sa)
                             (PyStr.join "/" rc)) =
             slashes nS +++ PyStr.join "/" pa).
  { intros rc Hrc Hne Hf.
    rewrite join2_parts by assumption.
    rewrite normpath_parts by (try assumption; now apply Forall_app).
    rewrite fold_left_app, (fold_clean_pushes sa [] Hsa). cbn [app].
    now rewrite Hf. }
  destruct (repeat ".." (List.length sa - i) ++ skipn i pa) as [|c cs] eqn:E.
  - injection Hrel as <-.
    apply app_eq_nil in E as [Ek Eskip].
    assert (Hlen : List.length sa - i = 0)
      by (destruct (List.length sa - i); [reflexivity | discriminate]).
    apply (Hfold ["."]).
    + constructor; [split; [reflexivity | discriminate] | constructor].
    + discriminate.
    + cbn [fold_left]. rewrite dot_step.
      rewrite <- (firstn_skipn i pa), Eskip, app_nil_r, <- Hfirst.
      symmetry. apply firstn_all2. lia.
  - injection Hrel as <-.
    assert (Hrc : Forall plain (c :: cs)).
    { rewrite <- E. apply Forall_app. split.
      - apply Forall_forall. intros x Hx. apply repeat_spec in Hx as ->.
        apply dotdot_plain.
      - apply Forall_skipn. exact Hpa'. }
    rewrite (join_plain c cs Hrc).
    apply Hfold; [exact Hrc | discriminate|].
    rewrite <- E, fold_left_app.
    rewrite fold_dotdot_pops by (assumption || lia).
    replace (List.length sa - (List.length sa - i)) with i by lia.
    rewrite fold_clean_pushes by (apply Forall_skipn; exact Hpa).
    now rewrite Hfirst, firstn_skipn.
Qed.

End RelpathFacts.

Lemma str_nonempty (p : pathlib.Path) : pathlib.str p <> EmptyString.
Proof.
  unfold pathlib.str.
  destruct (String.eqb _ EmptyString) eqn:E; [discriminate|].
  now apply String.eqb_neq.
Qed.

(** X17: a confirmed save outside the root folder, in a world where
    nothing fails and the working directory is an absolute path, writes for
    each entry a line that leads back to the track: joined onto the
    absolute output directory and normalised, the line gives the absolute
    path of [root / entry], provided both absolute paths start with the
    same number of slashes (one, for ordinary paths). *)
Theorem saved_lines_lead_to_tracks (w : World) (a : App) (path : string)
    (rf : pathlib.Path) :
  healthy w ->
  save_confirmed w a path ->
  root_folder a = Some rf ->
  same_directory w (pathlib.parent (pathlib.Path_of path)) rf = false ->
  (forall c, getcwd w = Ok c -> posixpath.isabs c = true) ->
  exists lines,
    In (FileWritten (pathlib.str (pathlib.Path_of path)) (m3u8_text lines))
       (snd (save_playlist w a)) /\
    Forall2
      (fun t line =>
         forall S P,
           posixpath.abspath (getcwd w)
             (pathlib.str (pathlib.parent (pathlib.Path_of path))) = Ok S ->
           posixpath.abspath (getcwd w)
             (pathlib.str (pathlib.joinpath rf t)) = Ok P ->
           posixpath.initial_slashes S = posixpath.initial_slashes P ->
           posixpath.normpath (posixpath.join2 S line) = P)
      (playlist_widget a) lines.
Proof.
  intros Hw Hc Hroot Hsame Hcwd.
  exists (map (spec_path_line w (root_folder a)
                 (pathlib.parent (pathlib.Path_of path)))
              (playlist_widget a)).
  split.
  - rewrite (save_playlist_confirmed w Hw a path Hc).
    right. right. left. reflexivity.
  - rewrite Hroot.
    induction (playlist_widget a) as [|t l IH]; cbn [map]; constructor;
      [|exact IH].
    intros S P HS HP Hini. unfold spec_path_line. rewrite Hsame.
    destruct (posixpath.relpath _ _ _) as [rel|e] eqn:E.
    + exact (relpath_back _ _ _ _ _ _ Hcwd HS HP Hini E).
    + exfalso. unfold posixpath.relpath in E.
      pose proof (str_nonempty (pathlib.joinpath rf t)) as Hne.
      apply String.eqb_neq in Hne. rewrite Hne, HS, HP in E. cbn in E.
      destruct (_ ++ _); discriminate.
Qed.

Lemma saved_lines_lead_to_tracks_witness :
  exists lines,
    In (FileWritten "/music/sub/list.m3u8" (m3u8_text lines))
       (snd (save_playlist
               (music_world "/music" ("list", true) "/music/sub/list.m3u8")
               (mkApp (Some (pathlib.Path_of "/music")) EmptyString [] []
                      ["A/song.mp3"; "b.flac"] 0))) /\
    List.length lines = 2.
Proof.
  assert (Hc : save_confirmed
                 (music_world "/music" ("list", true) "/music/sub/list.m3u8")
                 (mkApp (Some (pathlib.Path_of "/music")) EmptyString [] []
                        ["A/song.mp3"; "b.flac"] 0)
                 "/music/sub/list.m3u8").
  { split; [discriminate|]. split; [reflexivity|]. split; [reflexivity|].
    split; [reflexivity | discriminate]. }
  assert (Hcwd : forall c,
             getcwd (music_world "/music" ("list", true)
                       "/music/sub/list.m3u8") = Ok c ->
             posixpath.isabs c = true).
  { intros c [= <-]. reflexivity. }
  destruct (saved_lines_lead_to_tracks
              (music_world "/music" ("list", true) "/music/sub/list.m3u8")
              (mkApp (Some (pathlib.Path_of "/music")) EmptyString [] []
                     ["A/song.mp3"; "b.flac"] 0)
              "/music/sub/list.m3u8" (pathlib.Path_of "/music")
              (music_world_healthy _ _ _) Hc eq_refl eq_refl Hcwd)
    as (lines & Hin & H2).
  exists lines. split; [exact Hin|].
  symmetry. exact (Forall2_length H2).
Defined.

(** ** Invariants of the application *)

Lemma item_texts_in (model : list string) (sel : list nat)
    (items : list string) :
  item_texts model sel = Ok items -> Forall (fun t => In t model) items.
Proof.
  revert items. induction sel as [|i sel IH]; intros items; cbn.
  - intros [= <-]. constructor.
  - destruct (nth_error model i) as [t|] eqn:En; [|discriminate].
    destruct (item_texts model sel) as [ts|e]; [|discriminate].
    intros [= <-]. constructor; [now apply nth_error_In in En | now apply IH].
Qed.

Lemma add_selected_frame (sel_model sel_view : list nat) (a : App) :
  let a' := fst (add_selected_to_playlist sel_model sel_view a) in
  root_folder a' = root_folder a /\ library a' = library a /\
  library_model a' = library_model a /\
  exists its, playlist_widget a' = playlist_widget a ++ its /\
              Forall (fun t => In t (library_model a)) its.
Proof.
  unfold add_selected_to_playlist, get_selected_library_items.
  destruct (item_texts (library_model a) sel_model) as [items|e] eqn:E.
  2:{ cbn. repeat split. exists []. now rewrite app_nil_r. }
  pose proof (item_texts_in _ _ _ E) as Hin.
  destruct items as [|t items].
  - destruct sel_view as [|i sv].
    + cbn. repeat split. exists []. split; [reflexivity | constructor].
    + destruct (item_texts (library_model a) [i]) as [its|e] eqn:E'.
      * cbn. repeat split. exists its. split; [reflexivity|].
        now apply (item_texts_in _ _ _ E').
      * cbn. repeat split. exists []. now rewrite app_nil_r.
  - cbn. repeat split. now exists (t :: items).
Qed.

Lemma remove_selected_frame (next_row : Z) (a : App) :
  let a' := remove_selected_from_playlist next_row a in
  root_folder a' = root_folder a /\ library a' = library a /\
  library_model a' = library_model a /\
  forall P : string -> Prop,
    Forall P (playlist_widget a) -> Forall P (playlist_widget a').
Proof.
  unfold remove_selected_from_playlist.
  destruct (current_row a >=? 0)%Z; [|now repeat split].
  destruct (takeItem_cases (current_row a) (playlist_widget a))
    as [(l1 & x & l2 & Hl & _ & ->)|[_ ->]]; cbn; repeat split; trivial.
  intros P HP. rewrite Hl in HP. apply Forall_app in HP as [H1 H2].
  inversion H2; subst. now apply Forall_app.
Qed.

Lemma move_frame_model (a : App) :
  library_model (move_up a) = library_model a /\
  library_model (move_down a) = library_model a.
Proof.
  unfold move_up, move_down.
  destruct (current_row a >? 0)%Z;
    destruct ((current_row a >=? 0) && _)%Z;
    repeat match goal with
           | |- context [takeItem ?r ?l] => destruct (takeItem r l)
           end; now split.
Qed.

Lemma scan_folder_audio (w : World) (a : App) (start : pathlib.Path) :
  scan_start w a = Some start ->
  (forall r, root_folder a = Some r -> parsed r) ->
  wf_listing w start ->
  library_model (fst (scan_folder w a)) = library (fst (scan_folder w a)) /\
  library_sorted (library (fst (scan_folder w a))) /\
  Forall has_audio_ext (library (fst (scan_folder w a))).
Proof.
  intros Hs Hr Hwf.
  destruct (scan_folder_ok w a start Hs Hr Hwf)
    as (tracks & _ & H2 & _ & Hl & Hm).
  rewrite Hl, Hm. split; [reflexivity|]. split; [apply sorted_library_sorted|].
  apply Forall_forall. intros e He.
  apply (Permutation_in _ (Permutation_sym (sorted_perm PyStr.lower tracks)))
    in He.
  destruct (Forall2_in_r _ _ _ _ H2 He) as ([r f] & Hin & Hrec).
  destruct (matched_files_in _ _ _ Hin) as (dirs & files & _ & _ & Ha).
  exact (recorded_audio start r f e Hrec Ha).
Qed.

Lemma scan_folder_not_started (w : World) (a : App) :
  scan_start w a = None -> fst (scan_folder w a) = a.
Proof.
  unfold scan_start, scan_folder. destruct (root_folder a); [discriminate|].
  now destruct (String.eqb (pick_directory w) EmptyString).
Qed.

(** X18: in every state the handlers can reach (scans running on listings
    with valid names), the root folder is a parsed path, the library is
    sorted by lowercased text, the library view shows the whole library,
    and every entry of the library and of the playlist ends, once
    lowercased, with a recognized audio extension. *)
Theorem reachable_invariant (a : App) : reachable a -> app_invariant a.
Proof.
  induction 1 as [| w a Hre (Hr & Hs & Hm & Hl & Hp)
                  | w a Hre (Hr & Hs & Hm & Hl & Hp) Hwf
                  | txt a Hre (Hr & Hs & Hm & Hl & Hp)
                  | sm sv a Hre (Hr & Hs & Hm & Hl & Hp)
                  | nx a Hre (Hr & Hs & Hm & Hl & Hp)
                  | a Hre (Hr & Hs & Hm & Hl & Hp)
                  | a Hre (Hr & Hs & Hm & Hl & Hp)
                  | a Hre (Hr & Hs & Hm & Hl & Hp)
                  | w a Hre (Hr & Hs & Hm & Hl & Hp)].
  - repeat split; try constructor. + intros r; discriminate.
    + intros i x y Hx. destruct i; discriminate.
  - split; [now apply choose_root_parsed|].
    unfold choose_root. destruct (String.eqb _ _); now repeat split.
  - destruct (scan_folder_frame_aux w a) as (Hroot & _ & Hpl & _).
    split; [now rewrite Hroot|]. rewrite Hpl.
    destruct (scan_start w a) as [start|] eqn:Est.
    + destruct (scan_folder_audio w a start Est Hr (Hwf _ eq_refl))
        as (H1 & H2 & H3).
      now repeat split.
    + rewrite (scan_folder_not_started w a Est). now repeat split.
  - repeat split; trivial. now rewrite filter_library_model.
  - destruct (add_selected_frame sm sv a)
      as (Hroot & Hlib & Hmod & its & Hpl & Hits).
    unfold app_invariant. rewrite Hroot, Hlib, Hmod, Hpl.
    repeat split; trivial.
    apply Forall_app. split; [exact Hp|].
    rewrite Forall_forall in Hl, Hits |- *.
    intros t Ht. apply Hl. rewrite <- Hm. now apply Hits.
  - destruct (remove_selected_frame nx a) as (Hroot & Hlib & Hmod & HP).
    unfold app_invariant. rewrite Hroot, Hlib, Hmod.
    repeat split; trivial. now apply HP.
  - destruct (move_frame a) as (Hperm & _ & Hlib & _ & Hroot & _).
    destruct (move_frame_model a) as [Hmod _].
    unfold app_invariant. rewrite Hroot, Hlib, Hmod. repeat split; trivial.
    rewrite Forall_forall in Hp |- *. intros t Ht. apply Hp.
    now apply (Permutation_in _ Hperm).
  - destruct (move_frame a) as (_ & Hperm & _ & Hlib & _ & Hroot).
    destruct (move_frame_model a) as [_ Hmod].
    unfold app_invariant. rewrite Hroot, Hlib, Hmod. repeat split; trivial.
    rewrite Forall_forall in Hp |- *. intros t Ht. apply Hp.
    now apply (Permutation_in _ Hperm).
  - repeat split; trivial; constructor.
  - rewrite save_playlist_state. now repeat split.
Qed.

Lemma reachable_invariant_witness :
  app_invariant
    (move_up
       (fst (add_selected_to_playlist [1; 0] [1; 0]
               (fst (scan_folder
                       (music_world "/music" (EmptyString, false) EmptyString)
                       (fst (choose_root
                               (music_world "/music" (EmptyString, false)
                                  EmptyString)
                               init))))))).
Proof.
  apply reachable_invariant.
  apply reach_move_up, reach_add_selected, reach_scan_folder.
  - apply reach_choose_root, reach_init.
  - intros start Hs. vm_compute in Hs. injection Hs as <-.
    exact (music_world_wf "/music" (EmptyString, false) EmptyString).
Defined.
